(** * Interactive Data Analysis Dashboard: cleaning, previews, plots, report

    A shallow embedding of [src/app.py].  The program is a Streamlit script
    over pandas; the embedding has three layers:

    - the pandas values the script manipulates ([cell], [Series],
      [DataFrame]) and the pandas operations it calls ([mean], [mode],
      [fillna], [dropna], [drop], [head], [groupby_mean], ...);
    - the Python object store: [df] and [df_processed] are references to
      DataFrame objects, [copy] allocates, [dropna(inplace=True)] and
      [df[col] = ...] mutate the object behind a reference;
    - the render pass of [main] after the file is loaded, written in a
      state-and-exception monad whose state is the object store and the
      list of Streamlit outputs emitted so far.

    A float64 value is a rational, an infinity or NaN.  What float64
    arithmetic makes of a mean (rounding, overflow, the order of the
    additions) is not computed here: the two means the script takes are an
    interface ([Arithmetic]) of which only the exactness on small whole
    numbers is assumed.  The text that pandas renders ([info],
    [describe], [to_string], [str] of a float) and the plotting back end
    are an interface too ([Library]). *)

From Stdlib Require Import QArith Qreduction Lia.
From stdpp Require Import base list strings gmap sorting pretty.

Local Open Scope string_scope.

(** ** Cells and dtypes *)

(** The dtypes the loader can give a column ([Category] is listed because
    the visualizer asks for it in [select_dtypes]). *)
Inductive dtype := Int64 | Float64 | Bool | Object | Category | Datetime64.

(** One entry of a column.  [NA] stands for NaN, None and NaT alike; a
    number is a rational or one of the two infinities (the sign of a zero
    is not kept). *)
Inductive cell :=
  | NA
  | Num (q : Q)
  | Flag (b : bool)
  | Str (s : string)
  | Stamp (t : Z)
  | Inf (negative : bool).

Record Series := mkSeries { s_dtype : dtype; s_values : list cell }.

(** [pd.api.types.is_numeric_dtype]: integers, floats and booleans. *)
Definition is_numeric_dtype (s : Series) : bool :=
  match s_dtype s with
  | Int64 | Float64 | Bool => true
  | Object | Category | Datetime64 => false
  end.

(** [select_dtypes(include=['number'])]: booleans are not numbers here. *)
Definition is_number (s : Series) : bool :=
  match s_dtype s with
  | Int64 | Float64 => true
  | _ => false
  end.

(** [select_dtypes(include=['object', 'category'])]. *)
Definition is_object_or_category (s : Series) : bool :=
  match s_dtype s with
  | Object | Category => true
  | _ => false
  end.

(** [dtype == 'object']. *)
Definition is_object (s : Series) : bool :=
  match s_dtype s with
  | Object => true
  | _ => false
  end.

Definition isnull (c : cell) : bool :=
  match c with NA => true | _ => false end.

Definition notnull (c : cell) : bool := negb (isnull c).

(** [s.isnull().any()] *)
Definition any_null (s : Series) : bool := existsb isnull (s_values s).

(** [s.isnull().sum()] *)
Definition null_count (s : Series) : nat :=
  length (List.filter isnull (s_values s)).

(** A float64: a finite value, an infinity, or NaN. *)
Inductive float64 :=
  | Finite (q : Q)
  | Infinite (negative : bool)
  | NaN.

Definition cell_of (x : float64) : cell :=
  match x with
  | Finite q => Num q
  | Infinite b => Inf b
  | NaN => NA
  end.

(** The number in a cell, if it holds one; a boolean counts as 0 or 1, in
    arithmetic and in comparisons alike ([True == 1] in Python). *)
Definition number_of (c : cell) : option float64 :=
  match c with
  | Num q => Some (Finite q)
  | Inf b => Some (Infinite b)
  | Flag b => Some (Finite (if b then 1%Q else 0%Q))
  | _ => None
  end.

Definition float_eqb (x y : float64) : bool :=
  match x, y with
  | Finite p, Finite q => Qeq_bool p q
  | Infinite a, Infinite b => Bool.eqb a b
  | _, _ => false
  end.

Definition float_leb (x y : float64) : bool :=
  match x, y with
  | Finite p, Finite q => Qle_bool p q
  | Infinite a, Infinite b => implb b a
  | Infinite a, Finite _ => a
  | Finite _, Infinite b => negb b
  | _, _ => false
  end.

(** Python's [==] on two cells; NaN is equal to nothing, itself included. *)
Definition cell_eqb (a b : cell) : bool :=
  match number_of a, number_of b with
  | Some x, Some y => float_eqb x y
  | _, _ =>
      match a, b with
      | Str s, Str t => String.eqb s t
      | Stamp x, Stamp y => Z.eqb x y
      | _, _ => false
      end
  end.

(** The kind of Python object in a cell: values of one kind are ordered
    among themselves (numbers and booleans together). *)
Definition kind (c : cell) : nat :=
  match c with
  | NA => 0 | Num _ | Inf _ | Flag _ => 1 | Str _ => 3 | Stamp _ => 4
  end.

(** The natural ordering of values: numeric order with the infinities at
    its ends and [False], [True] as 0 and 1, strings by code point,
    timestamps by time.  Cells of different kinds are ranked by kind so
    that the relation is total; the operations below sort only lists of
    one kind. *)
Definition cell_leb (a b : cell) : bool :=
  match number_of a, number_of b with
  | Some x, Some y => float_leb x y
  | _, _ =>
      match a, b with
      | Str s, Str t => String.leb s t
      | Stamp x, Stamp y => Z.leb x y
      | _, _ => Nat.leb (kind a) (kind b)
      end
  end.

Definition cell_le (a b : cell) : Prop := cell_leb a b = true.

#[global] Instance cell_le_dec : RelDecision cell_le.
Proof. intros a b. unfold cell_le. apply _. Defined.

(** ** Series operations *)

(** The numbers a numeric column holds, missing entries skipped
    ([skipna=True]). *)
Definition numbers (vs : list cell) : list float64 := omap number_of vs.

(** A whole number as a float64. *)
Definition whole (z : Z) : float64 := Finite (inject_Z z).

Definition Zsum (zs : list Z) : Z := fold_right Z.add 0%Z zs.

(** The sum of the absolute values. *)
Definition magnitude (zs : list Z) : Z := fold_right (fun z a => (Z.abs z + a)%Z) 0%Z zs.

(** Float64 arithmetic as the script meets it: the mean of the non-missing
    entries of a column ([Series.mean], numpy or bottleneck underneath)
    and the mean of one group of a [groupby] (a compensated sum in pandas'
    own routine).  Both are given the dtype and all entries of the column
    or group, and answer with a float64; how they round, in which order
    they add and when they overflow is theirs.  One law is assumed of
    each, which holds of IEEE 754 arithmetic whatever the order of the
    additions: when the numbers are whole, their absolute values add up
    to no more than 2^53 and their mean is whole, the mean is exact. *)
Class Arithmetic := {
  float_mean : dtype -> list cell -> float64;
  float_group_mean : dtype -> list cell -> float64;
  float_mean_whole : forall t vs zs m,
    numbers vs = map whole zs -> zs <> [] ->
    (magnitude zs <= 2 ^ 53)%Z ->
    Zsum zs = (m * Z.of_nat (length zs))%Z ->
    float_mean t vs = whole m;
  float_group_mean_whole : forall t vs zs m,
    numbers vs = map whole zs -> zs <> [] ->
    (magnitude zs <= 2 ^ 53)%Z ->
    Zsum zs = (m * Z.of_nat (length zs))%Z ->
    float_group_mean t vs = whole m
}.

(** [s.mean()]: NaN when the column has no number, the float64 mean of
    its numbers otherwise (which is NaN for [inf] and [-inf] together). *)
Definition mean `{Arithmetic} (s : Series) : cell :=
  match numbers (s_values s) with
  | [] => NA
  | _ => cell_of (float_mean (s_dtype s) (s_values s))
  end.

(** [s.fillna(value)] on the values. *)
Definition fillna (value : cell) (vs : list cell) : list cell :=
  map (fun c => if isnull c then value else c) vs.

Definition is_flag (c : cell) : bool := match c with Flag _ => true | _ => false end.

Definition is_stamp (c : cell) : bool := match c with Stamp _ => true | _ => false end.

Definition is_float (c : cell) : bool :=
  match c with Num _ | Inf _ => true | _ => false end.

(** The dtype pandas 2 gives an object column whose gaps have been filled:
    [fillna] converts the block when all its values are of one plain
    type, so a column of booleans with gaps, read as object, comes out as
    bool.  (Python integers alone would give int64; the cells do not tell
    3 from 3.0, and the parsers give no object column of numbers.) *)
Definition infer_objects (vs : list cell) : dtype :=
  match vs with
  | [] => Object
  | _ =>
      if forallb is_flag vs then Bool
      else if forallb is_stamp vs then Datetime64
      else if forallb is_float vs then Float64
      else Object
  end.

(** [s.fillna(value)]: a column of another dtype than object keeps it. *)
Definition fillna_series (value : cell) (s : Series) : Series :=
  let vs := fillna value (s_values s) in
  mkSeries (if is_object s then infer_objects vs else s_dtype s) vs.

(** Number of entries equal to [v]. *)
Definition occurrences (v : cell) (vs : list cell) : nat :=
  length (List.filter (cell_eqb v) vs).

(** The distinct values of a list, in order of first appearance. *)
Fixpoint distinct (vs : list cell) : list cell :=
  match vs with
  | [] => []
  | v :: r => v :: List.filter (fun w => negb (cell_eqb v w)) (distinct r)
  end.

Definition max_occurrences (ds vs : list cell) : nat :=
  fold_right Nat.max 0 (map (fun v => occurrences v vs) ds).

Definition same_kind (vs : list cell) : bool :=
  match vs with
  | [] => true
  | v :: r => forallb (fun w => Nat.eqb (kind w) (kind v)) r
  end.

(** Sorting as pandas does for modes and group keys: values of one kind are
    sorted, a mix that Python cannot compare is left as it is. *)
Definition sort_values_of_kind (vs : list cell) : list cell :=
  if same_kind vs then merge_sort cell_le vs else vs.

(** [s.mode()]: the most frequent non-missing values, sorted. *)
Definition mode (vs : list cell) : list cell :=
  let xs := List.filter notnull vs in
  let ds := distinct xs in
  let m := max_occurrences ds xs in
  sort_values_of_kind (List.filter (fun v => Nat.eqb (occurrences v xs) m) ds).

(** [s.astype(str)] on one value: [str(x)].  The text of a float and of a
    timestamp is the library's. *)
Definition py_str (str_float : Q -> string) (str_stamp : Z -> string)
    (c : cell) : string :=
  match c with
  | NA => "nan"
  | Num q => str_float q
  | Flag true => "True"
  | Flag false => "False"
  | Str s => s
  | Stamp t => str_stamp t
  | Inf false => "inf"
  | Inf true => "-inf"
  end.

(** ** DataFrames *)

(** A table: the length of its index and its columns in order, each under
    its label.  [read_csv] and [read_excel] give distinct labels. *)
Record DataFrame := mkDataFrame {
  nrows : nat;
  columns : list (string * Series)
}.

Definition labels (df : DataFrame) : list string := map fst (columns df).

(** [df.shape] *)
Definition shape (df : DataFrame) : nat * nat := (nrows df, length (columns df)).

Inductive exn :=
  | KeyError (label : string)
  | ValueError (msg : string)
  | ReferenceError
  | LibraryError (msg : string).

Inductive result (A : Type) :=
  | Ok (a : A)
  | Raise (e : exn).
Arguments Ok {A} a.
Arguments Raise {A} e.

Fixpoint lookup_column (col : string) (cs : list (string * Series)) : option Series :=
  match cs with
  | [] => None
  | (n, s) :: r => if String.eqb n col then Some s else lookup_column col r
  end.

(** [df[col]] *)
Definition getitem (df : DataFrame) (col : string) : result Series :=
  match lookup_column col (columns df) with
  | Some s => Ok s
  | None => Raise (KeyError col)
  end.

Fixpoint assign_column (col : string) (s : Series) (cs : list (string * Series))
    : list (string * Series) :=
  match cs with
  | [] => [(col, s)]
  | (n, x) :: r =>
      if String.eqb n col then (n, s) :: r else (n, x) :: assign_column col s r
  end.

(** [df[col] = s]: the column keeps its place; a new label is appended. *)
Definition setitem (col : string) (s : Series) (df : DataFrame) : DataFrame :=
  mkDataFrame (nrows df) (assign_column col s (columns df)).

(** [s.mode()[0]]: label 0 of the modes; KeyError when there is no mode. *)
Definition mode0 (vs : list cell) : result cell :=
  match mode vs with
  | v :: _ => Ok v
  | [] => Raise (KeyError "0")
  end.

Definition row_has_null (cs : list (string * Series)) (i : nat) : bool :=
  existsb (fun c => match s_values (snd c) !! i with
                    | Some v => isnull v
                    | None => false
                    end) cs.

Definition select_rows (rows : list nat) (vs : list cell) : list cell :=
  omap (fun i => vs !! i) rows.

(** [df.dropna()]: the rows with no missing entry, in order. *)
Definition dropna (df : DataFrame) : DataFrame :=
  let kept := List.filter (fun i => negb (row_has_null (columns df) i))
                          (seq 0 (nrows df)) in
  mkDataFrame (length kept)
    (map (fun c => (fst c, mkSeries (s_dtype (snd c)) (select_rows kept (s_values (snd c)))))
         (columns df)).

Definition mem (x : string) (xs : list string) : bool := existsb (String.eqb x) xs.

(** [df.drop(columns=cols)]: KeyError for a label that is not a column. *)
Definition drop (cols : list string) (df : DataFrame) : result DataFrame :=
  match List.find (fun c => negb (mem c (labels df))) cols with
  | Some c => Raise (KeyError c)
  | None =>
      Ok (mkDataFrame (nrows df)
            (List.filter (fun c => negb (mem (fst c) cols)) (columns df)))
  end.

(** [df.head()]: the first five rows. *)
Definition head_rows (df : DataFrame) : DataFrame :=
  mkDataFrame (Nat.min 5 (nrows df))
    (map (fun c => (fst c, mkSeries (s_dtype (snd c)) (take 5 (s_values (snd c)))))
         (columns df)).

(** [df.select_dtypes(include=...).columns.tolist()] *)
Definition select_dtypes (include : Series -> bool) (df : DataFrame) : list string :=
  map fst (List.filter (fun c => include (snd c)) (columns df)).

(** [df[cols]] for a list of labels of [df]. *)
Definition getitems (df : DataFrame) (cols : list string) : DataFrame :=
  mkDataFrame (nrows df) (List.filter (fun c => mem (fst c) cols) (columns df)).

(** [df.isnull().sum()] *)
Definition isnull_sum (df : DataFrame) : list (string * nat) :=
  map (fun c => (fst c, null_count (snd c))) (columns df).

(** The values of [vals] on the rows whose key is [key]. *)
Definition group_values (key : cell) (keys vals : list cell) : list cell :=
  map snd (List.filter (fun kv => cell_eqb key (fst kv)) (combine keys vals)).

(** The mean of one group: NaN when the group has no number. *)
Definition mean_of_group `{Arithmetic} (t : dtype) (vs : list cell) : cell :=
  match numbers vs with
  | [] => NA
  | _ => cell_of (float_group_mean t vs)
  end.

(** [df.groupby(cat)[num].mean()]: one entry per non-missing key, keys
    sorted, each with the mean of its group. *)
Definition groupby_mean `{Arithmetic} (keys vals : Series) : list (cell * cell) :=
  map (fun k => (k, mean_of_group (s_dtype vals)
                      (group_values k (s_values keys) (s_values vals))))
      (sort_values_of_kind (distinct (List.filter notnull (s_values keys)))).

(** Order of [sort_values(ascending=False)]: larger first, NaN last. *)
Definition desc_leb (a b : cell) : bool :=
  isnull b || (notnull a && cell_leb b a).

Definition by_value_desc (x y : cell * cell) : Prop := desc_leb (snd x) (snd y) = true.

#[global] Instance by_value_desc_dec : RelDecision by_value_desc.
Proof. intros a b. unfold by_value_desc. apply _. Defined.

(** [series.sort_values(ascending=False)].  pandas does not fix the order
    of entries with equal values; nothing below depends on it. *)
Definition sort_values_desc (xs : list (cell * cell)) : list (cell * cell) :=
  merge_sort by_value_desc xs.

(** [df.groupby(cat_column)[num_column].mean().sort_values(ascending=False)] *)
Definition bar_data `{Arithmetic} (df : DataFrame) (cat_column num_column : string)
    : result (list (cell * cell)) :=
  match getitem df cat_column with
  | Raise e => Raise e
  | Ok keys =>
      match getitem df num_column with
      | Raise e => Raise e
      | Ok vals => Ok (sort_values_desc (groupby_mean keys vals))
      end
  end.


(** ** The object store and the Streamlit outputs *)

(** What [describe()] returns, kept as the table it describes; its text is
    the library's. *)
Record stats := Describe { described : DataFrame }.

(** A call to the plotting libraries, with the data it is given. *)
Inductive chart :=
  | Histplot (data : Series) (bins : nat)
  | Boxplot (data : Series)
  | Scatterplot (x y : Series) (hue : option Series)
  | Barplot (agg_data : list (cell * cell))
  | Heatmap (numeric : DataFrame).

(** What the script sends to the page, in order (the sidebar and the
    expanders are not told apart). *)
Inductive output :=
  | Header (s : string)
  | Subheader (s : string)
  | Write (s : string)
  | WriteShape (s : string) (sh : nat * nat)
  | WriteStats (d : stats)
  | WriteCounts (c : list (string * nat))
  | Text (s : string)
  | Warning (s : string)
  | Dataframe (df : DataFrame)
  | Pyplot (c : chart) (title : string)
  | DownloadButton (label data file_name mime : string).

(** The libraries under the script: float64 arithmetic, the text pandas
    renders and the behaviour of the plotting back end, where [draw c] is
    the exception the plotting call [c] raises, if any. *)
Class Library := {
  arithmetic :: Arithmetic;
  str_float : Q -> string;
  str_stamp : Z -> string;
  info_text : DataFrame -> string;
  stats_to_string : stats -> string;
  counts_to_string : list (string * nat) -> string;
  draw : chart -> option exn
}.

(** The state of a render pass: the DataFrame objects by reference, and the
    outputs so far. *)
Record world := mkWorld {
  store : gmap nat DataFrame;
  screen : list output
}.

Definition M (A : Type) : Type := world -> result A * world.

Definition ret {A} (a : A) : M A := fun w => (Ok a, w).

Definition bind {A B} (m : M A) (k : A -> M B) : M B :=
  fun w => match m w with
           | (Ok a, w') => k a w'
           | (Raise e, w') => (Raise e, w')
           end.

Notation "x <- m ;; k" := (bind m (fun x => k))
  (at level 100, m at next level, right associativity).
Notation "m ;;; k" := (bind m (fun _ => k))
  (at level 100, right associativity).

Definition lift {A} (r : result A) : M A := fun w => (r, w).

Definition emit (o : output) : M unit :=
  fun w => (Ok tt, mkWorld (store w) (screen w ++ [o])).

(** A new object. *)
Definition alloc (df : DataFrame) : M nat :=
  fun w => let l := fresh (dom (store w)) in
           (Ok l, mkWorld (<[l := df]> (store w)) (screen w)).

(** The object behind a reference.  A Python reference always has its
    object; [ReferenceError] keeps [load] total and is not reached from
    [main], which only uses references it was given or has allocated. *)
Definition load (l : nat) : M DataFrame :=
  fun w => match store w !! l with
           | Some df => (Ok df, w)
           | None => (Raise ReferenceError, w)
           end.

(** Mutation of the object behind a reference. *)
Definition mutate (l : nat) (f : DataFrame -> DataFrame) : M unit :=
  fun w => match store w !! l with
           | Some df => (Ok tt, mkWorld (<[l := f df]> (store w)) (screen w))
           | None => (Raise ReferenceError, w)
           end.

(** [df.copy()]: a new object with the same contents. *)
Definition copy (l : nat) : M nat := df <- load l ;; alloc df.

Fixpoint for_each {A} (xs : list A) (body : A -> M unit) : M unit :=
  match xs with
  | [] => ret tt
  | x :: r => body x ;;; for_each r body
  end.

(** ** The widgets *)

Inductive strategy := NoStrategy | DropRows | FillMissing.

Inductive plot_kind := Histogram | BoxPlot | ScatterPlot | BarChart | CorrelationHeatmap.

(** What the user has selected when the pass runs.  A select box holds the
    position of the chosen option. *)
Record widgets := mkWidgets {
  missing_value_strategy : strategy;
  columns_to_drop : list string;
  plot_type : plot_kind;
  column_choice : nat;
  bins : nat;
  x_choice : nat;
  y_choice : nat;
  hue_choice : nat;
  cat_choice : nat;
  num_choice : nat
}.

(** [st.selectbox(label, options)]: the chosen option, the first one by
    default, [None] when there is no option. *)
Definition selectbox (options : list string) (choice : nat) : option string :=
  match options !! choice with
  | Some c => Some c
  | None => head options
  end.

(** Truth value of a selection: [None] and the empty string are false. *)
Definition chosen (o : option string) : option string :=
  match o with
  | Some "" => None
  | _ => o
  end.

Definition shape_text (sh : nat * nat) : string :=
  "(" ++ pretty (fst sh) ++ ", " ++ pretty (snd sh) ++ ")".

Fixpoint join (sep : string) (xs : list string) : string :=
  match xs with
  | [] => ""
  | [x] => x
  | x :: r => x ++ sep ++ join sep r
  end.

(** The line feed. *)
Definition nl : string := String (Ascii.ascii_of_nat 10) "".

Fixpoint repeat_string (s : string) (n : nat) : string :=
  match n with
  | 0 => ""
  | S k => s ++ repeat_string s k
  end.

(** [df.describe()]: pandas refuses a table without columns. *)
Definition describe (df : DataFrame) : result stats :=
  match columns df with
  | [] => Raise (ValueError "Cannot describe a DataFrame without columns")
  | _ => Ok (Describe df)
  end.

(** ** The render pass of [main], from the loaded [df] on *)

(** *** Cleaner (lines 58-98) *)

Section Cleaner.
Context `{Arithmetic}.

(** One turn of the loop over the columns. *)
Definition fill_column (df_processed : nat) (col : string) : M unit :=
  d <- load df_processed ;;
  s <- lift (getitem d col) ;;
  if any_null s then
    if is_numeric_dtype s then
      let fill_value := mean s in
      mutate df_processed (setitem col (fillna_series fill_value s))
    else
      fill_value <- lift (mode0 (s_values s)) ;;
      mutate df_processed (setitem col (fillna_series fill_value s))
  else ret tt.

Definition handle_missing_values (st : strategy) (df_processed : nat) : M unit :=
  match st with
  | DropRows =>
      mutate df_processed dropna ;;;
      d <- load df_processed ;;
      emit (Write ("Data shape after dropping missing values: " ++ shape_text (shape d)))
  | FillMissing =>
      d <- load df_processed ;;
      for_each (labels d) (fill_column df_processed) ;;;
      emit (Write "Missing values have been filled.")
  | NoStrategy => ret tt
  end.

(** The new value of [df_processed]: the same object when nothing is
    selected, the table [drop] returns otherwise. *)
Definition drop_columns (cols : list string) (df_processed : nat) : M nat :=
  match cols with
  | [] => ret df_processed
  | _ =>
      d <- load df_processed ;;
      d' <- lift (drop cols d) ;;
      df_processed' <- alloc d' ;;
      emit (Write ("Dropped columns: " ++ join ", " cols)) ;;;
      emit (Write ("Data shape after dropping columns: " ++ shape_text (shape d'))) ;;;
      ret df_processed'
  end.

Definition cleaner (ui : widgets) (df : nat) : M nat :=
  df_processed <- copy df ;;
  emit (Header "2. Data Cleaning & Preprocessing") ;;;
  emit (Subheader "Handle Missing Values") ;;;
  handle_missing_values (missing_value_strategy ui) df_processed ;;;
  emit (Subheader "Drop Columns") ;;;
  drop_columns (columns_to_drop ui) df_processed.

End Cleaner.

Section Render.
Context `{Library}.

(** *** Inspector (lines 101-135) *)

Definition astype_str (s : Series) : Series :=
  mkSeries Object (map (fun c => Str (py_str str_float str_stamp c)) (s_values s)).

Definition display_column (display_df : nat) (col : string) : M unit :=
  d <- load display_df ;;
  s <- lift (getitem d col) ;;
  if is_object s then mutate display_df (setitem col (astype_str s)) else ret tt.

Definition to_display_df (df_to_convert : nat) : M nat :=
  display_df <- copy df_to_convert ;;
  d <- load display_df ;;
  for_each (labels d) (display_column display_df) ;;;
  ret display_df.

(** [st.dataframe(to_display_df(x.head()))] *)
Definition preview (x : nat) : M unit :=
  d <- load x ;;
  h <- alloc (head_rows d) ;;
  display_df <- to_display_df h ;;
  shown <- load display_df ;;
  emit (Dataframe shown).

Definition inspector (df df_processed : nat) : M unit :=
  emit (Header "Data Exploration") ;;;
  preview df ;;;
  preview df_processed ;;;
  d <- load df_processed ;;
  emit (WriteShape "Shape of Processed DataFrame:" (shape d)) ;;;
  emit (Text (info_text d)) ;;;
  emit (Write "Descriptive Statistics:") ;;;
  st <- lift (describe d) ;;
  emit (WriteStats st) ;;;
  emit (WriteCounts (isnull_sum d)).

(** *** Visualizer (lines 137-207) *)

(** Building the figure and [st.pyplot(fig)]. *)
Definition plot (c : chart) (title : string) : M unit :=
  match draw c with
  | Some e => lift (Raise e)
  | None => emit (Pyplot c title)
  end.

Definition visualizer (ui : widgets) (df_processed : nat) : M unit :=
  emit (Header "Data Visualization") ;;;
  d <- load df_processed ;;
  let numeric_columns := select_dtypes is_number d in
  let categorical_columns := select_dtypes is_object_or_category d in
  match plot_type ui with
  | Histogram =>
      emit (Subheader "Histogram") ;;;
      match chosen (selectbox numeric_columns (column_choice ui)) with
      | Some column =>
          s <- lift (getitem d column) ;;
          plot (Histplot s (bins ui)) ("Histogram of " ++ column)
      | None => ret tt
      end
  | BoxPlot =>
      emit (Subheader "Box Plot") ;;;
      match chosen (selectbox numeric_columns (column_choice ui)) with
      | Some column =>
          s <- lift (getitem d column) ;;
          plot (Boxplot s) ("Box Plot of " ++ column)
      | None => ret tt
      end
  | ScatterPlot =>
      emit (Subheader "Scatter Plot") ;;;
      let x_axis := selectbox numeric_columns (x_choice ui) in
      let y_axis_options :=
        List.filter (fun col => negb (bool_decide (Some col = x_axis))) numeric_columns in
      let y_axis := selectbox y_axis_options (y_choice ui) in
      match chosen x_axis, chosen y_axis with
      | Some x, Some y =>
          let hue := match hue_choice ui with
                     | 0 => None
                     | S k => categorical_columns !! k
                     end in
          hue_data <- match chosen hue with
                      | Some h => s <- lift (getitem d h) ;; ret (Some s)
                      | None => ret None
                      end ;;
          sx <- lift (getitem d x) ;;
          sy <- lift (getitem d y) ;;
          plot (Scatterplot sx sy hue_data) ("Scatter Plot of " ++ x ++ " vs " ++ y)
      | _, _ => ret tt
      end
  | BarChart =>
      emit (Subheader "Bar Chart") ;;;
      let cat_column := selectbox categorical_columns (cat_choice ui) in
      let num_column := selectbox numeric_columns (num_choice ui) in
      match chosen cat_column, chosen num_column with
      | Some c, Some n =>
          agg_data <- lift (bar_data d c n) ;;
          plot (Barplot agg_data) ("Average " ++ n ++ " by " ++ c)
      | _, _ => ret tt
      end
  | CorrelationHeatmap =>
      emit (Subheader "Correlation Heatmap") ;;;
      match numeric_columns with
      | [] => emit (Warning "No numerical columns available to create a heatmap.")
      | _ =>
          plot (Heatmap (getitems d numeric_columns))
               "Correlation Matrix of Numerical Columns"
      end
  end.

(** *** Reporter (lines 209-237) *)

(** The writes to the buffer, in order; [getvalue()] is their
    concatenation.  [describe()] is evaluated before the fourth section
    is written. *)
Definition generate_summary (dataframe : nat) : M string :=
  d <- load dataframe ;;
  let written :=
    [ "Data Analysis Summary Report" ++ nl;
      repeat_string "=" 30 ++ nl ++ nl;
      "1. Data Shape" ++ nl;
      "Number of Rows: " ++ pretty (fst (shape d)) ++ nl;
      "Number of Columns: " ++ pretty (snd (shape d)) ++ nl ++ nl;
      "2. Data Info" ++ nl;
      info_text d;
      nl ++ nl ++ "3. Descriptive Statistics" ++ nl ] in
  st <- lift (describe d) ;;
  ret (String.concat ""
         (written ++
          [ stats_to_string st;
            nl ++ nl ++ "4. Missing Values Count" ++ nl;
            counts_to_string (isnull_sum d) ])).

Definition reporter (df_processed : nat) : M unit :=
  emit (Header "Export Summary Report") ;;;
  emit (Write "Download a text file with a summary of the processed data.") ;;;
  summary_text <- generate_summary df_processed ;;
  emit (DownloadButton "Download Summary Report" summary_text
                       "data_summary.txt" "text/plain").

(** [main] once [df] is bound (line 57). *)
Definition main (ui : widgets) (df : nat) : M unit :=
  df_processed <- cleaner ui df ;;
  inspector df df_processed ;;;
  visualizer ui df_processed ;;;
  reporter df_processed.

End Render.

(** ** The cleaner as a function of the contents of [df]

    The same steps on DataFrame values instead of references: what
    [df_processed] holds after each step, given what it held before. *)

Section Contents.
Context `{Arithmetic}.

Definition fill_column_on (d : DataFrame) (col : string) : result unit * DataFrame :=
  match getitem d col with
  | Raise e => (Raise e, d)
  | Ok s =>
      if any_null s then
        if is_numeric_dtype s then
          (Ok tt, setitem col (fillna_series (mean s) s) d)
        else
          match mode0 (s_values s) with
          | Ok v => (Ok tt, setitem col (fillna_series v s) d)
          | Raise e => (Raise e, d)
          end
      else (Ok tt, d)
  end.

Fixpoint fill_columns_on (cols : list string) (d : DataFrame) : result unit * DataFrame :=
  match cols with
  | [] => (Ok tt, d)
  | c :: r =>
      match fill_column_on d c with
      | (Ok _, d') => fill_columns_on r d'
      | (Raise e, d') => (Raise e, d')
      end
  end.

Definition handle_missing_values_on (st : strategy) (d : DataFrame)
    : result unit * DataFrame :=
  match st with
  | DropRows => (Ok tt, dropna d)
  | FillMissing => fill_columns_on (labels d) d
  | NoStrategy => (Ok tt, d)
  end.

Definition drop_columns_on (cols : list string) (d : DataFrame) : result DataFrame :=
  match cols with
  | [] => Ok d
  | _ => drop cols d
  end.

(** The working copy, from the original table, the strategy and the drop
    set. *)
Definition working_copy (st : strategy) (cols : list string) (d : DataFrame)
    : result DataFrame :=
  match handle_missing_values_on st d with
  | (Ok _, d1) => drop_columns_on cols d1
  | (Raise e, _) => Raise e
  end.

(** What the fill strategy does to one column. *)
Definition fill_series (s : Series) : result Series :=
  if any_null s then
    if is_numeric_dtype s then Ok (fillna_series (mean s) s)
    else
      match mode0 (s_values s) with
      | Ok v => Ok (fillna_series v s)
      | Raise e => Raise e
      end
  else Ok s.

End Contents.

(** ** Properties stated in the specification *)

(** [v] is a non-missing value of [vs] that no value occurs more often
    than. *)
Definition most_frequent (vs : list cell) (v : cell) : Prop :=
  In v vs /\ isnull v = false /\
  (forall u, In u vs -> isnull u = false -> occurrences u vs <= occurrences v vs).

(** No value that occurs as often as [v] comes before [v] in the ordering
    of values. *)
Definition first_of_ties (vs : list cell) (v : cell) : Prop :=
  forall u, In u vs -> isnull u = false ->
    occurrences u vs = occurrences v vs -> cell_le v u.

(** The values are of one kind, so that Python can order them. *)
Definition one_kind (vs : list cell) : Prop :=
  forall u v, In u vs -> In v vs -> isnull u = false -> isnull v = false ->
    kind u = kind v.



(** What the loader hands over: distinct labels; a column with no value at
    all is typed float64, so a column of another dtype that has a missing
    entry has a value too. *)
Record tidy (d : DataFrame) : Prop := {
  tidy_labels : NoDup (labels d);
  tidy_inferred : forall col s, In (col, s) (columns d) ->
    is_numeric_dtype s = false -> any_null s = true ->
    exists v, In v (s_values s) /\ isnull v = false
}.

(** [sub] occurs in [s]. *)
Definition contains (s sub : string) : Prop :=
  exists pre post, s = pre ++ sub ++ post.


(** ** Tables and selections of the scenarios *)

Definition people : DataFrame :=
  mkDataFrame 3 [("age", mkSeries Float64 [Num 25; NA; Num 31]);
                 ("city", mkSeries Object [Str "NY"; Str "NY"; Str "LA"])].



(** A file whose column [score] is empty in every row. *)
Definition unscored : DataFrame :=
  mkDataFrame 2 [("id", mkSeries Int64 [Num 1; Num 2]);
                 ("score", mkSeries Float64 [NA; NA])].

Definition selection (st : strategy) (cols : list string) (p : plot_kind) : widgets :=
  mkWidgets st cols p 0 20 0 0 0 0 0.

(** A world with one object, the loaded table, behind reference 0. *)
Definition loaded (d : DataFrame) : world := mkWorld {[ 0 := d ]} [].

(** A stand-in for the arithmetic where a scenario needs one: sums and
    quotients without rounding. *)
Fixpoint exact_sum (xs : list float64) : float64 :=
  match xs with
  | [] => Finite 0
  | x :: r =>
      match x, exact_sum r with
      | NaN, _ | _, NaN => NaN
      | Finite p, Finite q => Finite (p + q)
      | Infinite a, Finite _ => Infinite a
      | Finite _, Infinite b => Infinite b
      | Infinite a, Infinite b => if Bool.eqb a b then Infinite a else NaN
      end
  end.

Definition exact_mean (t : dtype) (vs : list cell) : float64 :=
  match exact_sum (numbers vs) with
  | Finite q => Finite (Qred (q / inject_Z (Z.of_nat (length (numbers vs)))))
  | x => x
  end.

(** It is exact wherever the laws ask for it. *)
Definition sample_arithmetic : Arithmetic.
Proof.
  refine {| float_mean := exact_mean; float_group_mean := exact_mean |};
    intros t vs zs m N NE _ S; unfold exact_mean; rewrite N.
  all: assert (Sum : exists q, exact_sum (map whole zs) = Finite q /\
                                (q == inject_Z (Zsum zs))%Q).
  1, 3: clear; induction zs as [|z zs [q [E Q]]]; simpl;
    [exists 0%Q; split; reflexivity|].
  1, 2: rewrite E; exists (inject_Z z + q)%Q; split; [reflexivity|];
    rewrite Q, inject_Z_plus; reflexivity.
  all: destruct Sum as [q [E Q]]; rewrite E;
    change (whole m) with (Finite (inject_Z m)); f_equal.
  all: assert (Mean : (q / inject_Z (Z.of_nat (length (map whole zs))) == inject_Z m)%Q).
  1, 3: rewrite length_map, Q, S, inject_Z_mult;
    assert (~ (inject_Z (Z.of_nat (length zs)) == 0)%Q) as NZ
      by (destruct zs; [congruence|]; unfold Qeq; simpl; lia);
    field; exact NZ.
  all: rewrite (Qred_complete _ _ Mean); unfold inject_Z, Qred.
  all: pose proof (Z.ggcd_gcd m 1) as G; pose proof (Z.ggcd_correct_divisors m 1) as D.
  all: destruct (Z.ggcd m 1) as [g [aa bb]]; simpl in G, D; rewrite Z.gcd_1_r in G.
  all: subst g; destruct D as [D1 D2]; rewrite Z.mul_1_l in D1, D2; subst; reflexivity.
Defined.

(** Stand-ins for the library where a scenario needs one: the arithmetic
    above, numbers written as fractions, the renderings short tags, and
    every plot succeeds. *)
Definition sample_library : Library := {|
  arithmetic := sample_arithmetic;
  str_float q := pretty (Qnum q) ++ "/" ++ pretty (Zpos (Qden q));
  str_stamp t := pretty t;
  info_text _ := "<info>";
  stats_to_string _ := "<describe>";
  counts_to_string _ := "<counts>";
  draw _ := None
|}.

(** The same, with the bar plot of pandas: it raises IndexError when there
    is no bar to draw. *)
Definition strict_library : Library := {|
  arithmetic := sample_arithmetic;
  str_float q := pretty (Qnum q) ++ "/" ++ pretty (Zpos (Qden q));
  str_stamp t := pretty t;
  info_text _ := "<info>";
  stats_to_string _ := "<describe>";
  counts_to_string _ := "<counts>";
  draw c := match c with
            | Barplot [] => Some (LibraryError "IndexError: index 0 is out of bounds for axis 0 with size 0")
            | _ => None
            end
|}.

(** A table without a number. *)
Definition cities : DataFrame :=
  mkDataFrame 3 [("city", mkSeries Object [Str "NY"; Str "NY"; Str "LA"])].

(** The table of the bar chart scenario. *)
Definition sales : DataFrame :=
  mkDataFrame 3 [("category", mkSeries Object [Str "A"; Str "A"; Str "B"]);
                 ("value", mkSeries Int64 [Num 10; Num 20; Num 30])].

(** ** The preview as a function of the contents *)

Section Display.
Context `{Library}.

(** What [to_display_df] does to one column. *)
Definition display_series (s : Series) : Series :=
  if is_object s then astype_str s else s.

Definition display_table (d : DataFrame) : DataFrame :=
  mkDataFrame (nrows d) (map (fun c => (fst c, display_series (snd c))) (columns d)).

(** A column of the preview against the column it shows: all text when
    the column is of dtype object, the first five entries as they are
    otherwise. *)
Definition previewed (old new : Series) : Prop :=
  if is_object old
  then s_dtype new = Object /\
       s_values new = map (fun v => Str (py_str str_float str_stamp v))
                          (take 5 (s_values old))
  else new = mkSeries (s_dtype old) (take 5 (s_values old)).
End Display.

(** A sheet with a column of dates, as [read_excel] types it. *)
Definition events : DataFrame :=
  mkDataFrame 2 [("when", mkSeries Datetime64 [Stamp 0; Stamp 86400]);
                 ("what", mkSeries Object [Str "open"; NA])].

(** A table whose column [note] holds no value although it is typed
    object; the loader does not produce it, a DataFrame can be it. *)
Definition blank_notes : DataFrame :=
  mkDataFrame 2 [("note", mkSeries Object [NA; NA])].

(** Every row has a gap, so dropping the rows with gaps leaves none. *)
Definition gaps : DataFrame :=
  mkDataFrame 2 [("group", mkSeries Object [Str "A"; NA]);
                 ("amount", mkSeries Float64 [NA; Num 1])].

(** A step that only reads the store. *)
Definition keeps_store {A} (m : M A) : Prop :=
  forall w, store (snd (m w)) = store w.

(** A step that leaves alone every object that exists when it starts,
    those in [S] apart. *)
Definition modifies_only {A} (S : nat -> Prop) (m : M A) : Prop :=
  forall w k x, ~ S k -> store w !! k = Some x -> store (snd (m w)) !! k = Some x.

(** ** Shape of a table across the cleaner *)

(** Every column spans the index. *)
Definition regular (d : DataFrame) : Prop :=
  Forall (fun c => length (s_values (snd c)) = nrows d) (columns d).

(** [df.dtypes]: the label and the dtype of each column, in order. *)
Definition dtypes (d : DataFrame) : list (string * dtype) :=
  map (fun c => (fst c, s_dtype (snd c))) (columns d).

(** A column against the column it was: the label is kept, and so is the
    dtype unless the column was of dtype object. *)
Definition column_kept (old new : string * Series) : Prop :=
  fst new = fst old /\
  (s_dtype (snd new) = s_dtype (snd old) \/ is_object (snd old) = true).

(** ** The start of [main]: upload, loader, sheet choice (lines 12-56) *)

(** The uploaded file: its name and its bytes. *)
Record upload := mkUpload { file_name : string; file_content : string }.

(** [pd.read_csv] and [pd.read_excel(sheet_name=None)], which gives the
    sheets by name, in the order of the workbook. *)
Class Parser := {
  read_csv : string -> result DataFrame;
  read_excel : string -> result (list (string * DataFrame))
}.

(** [s.endswith(suffix)] *)
Fixpoint endswith (s suffix : string) : bool :=
  if String.eqb s suffix then true
  else match s with
       | "" => false
       | String _ r => endswith r suffix
       end.

(** What [load_data] returns when it returns something. *)
Inductive file_data :=
  | Table (d : DataFrame)
  | Sheets (sheets : list (string * DataFrame)).

(** What the start of the script shows. *)
Inductive notice :=
  | Title (s : string)
  | Caption (s : string)
  | SidebarHeader (s : string)
  | Success (s : string)
  | Info (s : string)
  | Error (s : string) (e : exn).

(** How the start of the script ends: with [df] bound, or in [st.stop()]. *)
Inductive start :=
  | Proceed (df : DataFrame)
  | Stop.

(** How the script ends. *)
Inductive outcome :=
  | Halted
  | Crashed (e : exn)
  | Rendered (r : result unit) (w : world).

Fixpoint sheet_named (name : string) (sheets : list (string * DataFrame))
    : option DataFrame :=
  match sheets with
  | [] => None
  | (n, d) :: r => if String.eqb n name then Some d else sheet_named name r
  end.

Section Script.
Context `{Library} `{Parser}.

(** The body of the [try] in [load_data]; a file that is neither [.csv]
    nor [.xlsx] falls through both tests and the function returns [None]. *)
Definition load_data_try (file : upload) : result (option file_data) :=
  if endswith (file_name file) ".csv" then
    match read_csv (file_content file) with
    | Ok d => Ok (Some (Table d))
    | Raise e => Raise e
    end
  else if endswith (file_name file) ".xlsx" then
    match read_excel (file_content file) with
    | Ok sheets => Ok (Some (Sheets sheets))
    | Raise e => Raise e
    end
  else Ok None.

(** [load_data]: any exception of the body is shown and turned into
    [None].  (One pass is modelled; the memoisation by [st.cache_data]
    across passes is not.) *)
Definition load_data (file : upload) : list notice * option file_data :=
  match load_data_try file with
  | Ok r => ([], r)
  | Raise e => ([Error "Error loading data: " e], None)
  end.

(** [main] down to line 56. *)
Definition begin (uploaded_file : option upload) (sheet_choice : nat)
    : list notice * result start :=
  let top := [Title "📊 Interactive Data Analysis Dashboard";
              Caption "Upload your CSV or Excel file to begin exploring your data.";
              SidebarHeader "1. Upload Your Data"] in
  match uploaded_file with
  | None => ((top ++ [Info "Awaiting file upload."])%list, Ok Stop)
  | Some file =>
      let shown := (top ++ [Success "File uploaded successfully!"] ++ fst (load_data file))%list in
      match snd (load_data file) with
      | None => (shown, Ok Stop)
      | Some (Table d) => (shown, Ok (Proceed d))
      | Some (Sheets sheets) =>
          match selectbox (map fst sheets) sheet_choice with
          | Some sheet_name =>
              match sheet_named sheet_name sheets with
              | Some d => (shown, Ok (Proceed d))
              | None => (shown, Raise (KeyError sheet_name))
              end
          | None => (shown, Raise (KeyError "None"))
          end
      end
  end.

(** The whole script: the start, then the render pass on the loaded
    table. *)
Definition script (uploaded_file : option upload) (sheet_choice : nat) (ui : widgets)
    : list notice * outcome :=
  match begin uploaded_file sheet_choice with
  | (shown, Ok (Proceed d)) =>
      (shown, Rendered (fst (main ui 0 (loaded d))) (snd (main ui 0 (loaded d))))
  | (shown, Ok Stop) => (shown, Halted)
  | (shown, Raise e) => (shown, Crashed e)
  end.

(** The text of the report of a table. *)
Definition report_text (d : DataFrame) : string :=
  "Data Analysis Summary Report" ++ nl ++
  "==============================" ++ nl ++ nl ++
  "1. Data Shape" ++ nl ++
  "Number of Rows: " ++ pretty (nrows d) ++ nl ++
  "Number of Columns: " ++ pretty (length (columns d)) ++ nl ++ nl ++
  "2. Data Info" ++ nl ++
  info_text d ++ nl ++ nl ++
  "3. Descriptive Statistics" ++ nl ++
  stats_to_string (Describe d) ++ nl ++ nl ++
  "4. Missing Values Count" ++ nl ++
  counts_to_string (isnull_sum d).

End Script.

(** A parser for the scenarios: the bytes [people] stand for the table
    [people], a workbook has the sheets [people] and [sales], anything else
    is refused. *)
Definition sample_parser : Parser := {|
  read_csv c := if String.eqb c "people" then Ok people
                else Raise (ValueError "No columns to parse from file");
  read_excel c := if String.eqb c "workbook" then Ok [("people", people); ("sales", sales)]
                  else Raise (ValueError "File is not a zip file")
|}.

(** * Proofs *)

Local Open Scope list_scope.

(** ** Equality and order of cells *)

Lemma float_eqb_refl x : x <> NaN -> float_eqb x x = true.
Proof.
  destruct x; simpl; [intros _; apply Qeq_bool_refl|intros _; apply Bool.eqb_reflx|congruence].
Qed.

Lemma float_eqb_sym x y : float_eqb x y = float_eqb y x.
Proof.
  destruct x, y; simpl; try reflexivity.
  - destruct (Qeq_bool q q0) eqn:E1, (Qeq_bool q0 q) eqn:E2; try reflexivity.
    + apply Qeq_bool_sym in E1. congruence.
    + apply Qeq_bool_sym in E2. congruence.
  - destruct negative, negative0; reflexivity.
Qed.

Lemma float_eqb_trans x y z :
  float_eqb x y = true -> float_eqb y z = true -> float_eqb x z = true.
Proof.
  destruct x, y; simpl; try discriminate; destruct z; simpl; try discriminate.
  - apply Qeq_bool_trans.
  - destruct negative, negative0, negative1; simpl; congruence.
Qed.

Lemma float_leb_eqb_r x y z :
  float_eqb y z = true -> float_leb x y = true -> float_leb x z = true.
Proof.
  destruct y, z; simpl; try discriminate; intros E; destruct x; simpl; auto.
  - apply Qeq_bool_iff in E. rewrite !Qle_bool_iff. intros L. rewrite <- E. exact L.
  - apply Bool.eqb_prop in E. congruence.
  - apply Bool.eqb_prop in E. congruence.
Qed.

Lemma float_leb_total x y :
  x <> NaN -> y <> NaN -> float_leb x y = true \/ float_leb y x = true.
Proof.
  destruct x, y; simpl; try congruence; intros _ _.
  - rewrite !Qle_bool_iff. destruct (Qlt_le_dec q q0) as [L|L]; auto using Qlt_le_weak.
  - destruct negative; simpl; auto.
  - destruct negative; simpl; auto.
  - destruct negative, negative0; simpl; auto.
Qed.

Lemma float_leb_trans x y z :
  float_leb x y = true -> float_leb y z = true -> float_leb x z = true.
Proof.
  destruct x, y; simpl; try discriminate; destruct z; simpl; try discriminate; auto;
    try (repeat match goal with b : bool |- _ => destruct b end;
         simpl; intros; solve [congruence | reflexivity]).
  rewrite !Qle_bool_iff. apply Qle_trans.
Qed.

Lemma cell_eqb_notnull a b : cell_eqb a b = true -> isnull a = false /\ isnull b = false.
Proof. destruct a, b; simpl; intros E; try discriminate; auto. Qed.

Lemma cell_eqb_refl a : isnull a = false -> cell_eqb a a = true.
Proof.
  destruct a; intros E; try discriminate;
    try (apply float_eqb_refl; discriminate).
  - apply String.eqb_refl.
  - apply Z.eqb_refl.
Qed.

Lemma cell_eqb_sym a b : cell_eqb a b = cell_eqb b a.
Proof.
  destruct a, b; try reflexivity; try apply float_eqb_sym.
  - apply String.eqb_sym.
  - apply Z.eqb_sym.
Qed.

Lemma cell_eqb_trans a b c :
  cell_eqb a b = true -> cell_eqb b c = true -> cell_eqb a c = true.
Proof.
  destruct a, b; try discriminate; destruct c; try discriminate;
    try exact (float_eqb_trans _ _ _).
  - unfold cell_eqb. simpl. rewrite !String.eqb_eq. congruence.
  - unfold cell_eqb. simpl. rewrite !Z.eqb_eq. congruence.
Qed.

Lemma cell_eqb_kind a b : cell_eqb a b = true -> kind a = kind b.
Proof. destruct a, b; simpl; intros E; try discriminate; reflexivity. Qed.

(** Equal cells behave alike in comparisons. *)
Lemma cell_eqb_congr a b c : cell_eqb a b = true -> cell_eqb a c = cell_eqb b c.
Proof.
  intros E.
  destruct (cell_eqb a c) eqn:E1, (cell_eqb b c) eqn:E2; try reflexivity.
  - rewrite cell_eqb_sym in E. rewrite (cell_eqb_trans _ _ _ E E1) in E2. discriminate.
  - rewrite (cell_eqb_trans _ _ _ E E2) in E1. discriminate.
Qed.

Lemma cell_le_eqb_r a b c : cell_eqb b c = true -> cell_le a b -> cell_le a c.
Proof.
  unfold cell_le.
  destruct b, c; try discriminate; destruct a;
    try exact (float_leb_eqb_r _ _ _); unfold cell_eqb, cell_leb; simpl; auto.
  - intros E. apply String.eqb_eq in E. congruence.
  - intros E. apply Z.eqb_eq in E. congruence.
Qed.

#[global] Instance cell_le_total : Total cell_le.
Proof.
  intros a b. unfold cell_le.
  destruct a, b; try (apply float_leb_total; discriminate);
    unfold cell_leb; simpl; auto.
  - apply String.leb_total.
  - rewrite !Z.leb_le. lia.
Qed.

#[global] Instance cell_le_trans : Transitive cell_le.
Proof.
  intros a b c. unfold cell_le.
  destruct a, b; try discriminate; destruct c; try discriminate;
    try exact (float_leb_trans _ _ _); unfold cell_leb; simpl; auto.
  - intros L1 L2. apply Is_true_true. apply Is_true_true in L1, L2.
    exact (transitivity (R := String.le) L1 L2).
  - rewrite !Z.leb_le. lia.
Qed.

Lemma desc_leb_total a b : desc_leb a b = true \/ desc_leb b a = true.
Proof.
  unfold desc_leb, notnull.
  destruct (isnull b) eqn:Eb; simpl; auto.
  destruct (isnull a) eqn:Ea; simpl; auto.
  destruct (cell_le_total a b) as [L|L]; unfold cell_le in L; rewrite L; auto.
Qed.

Lemma desc_leb_trans a b c :
  desc_leb a b = true -> desc_leb b c = true -> desc_leb a c = true.
Proof.
  unfold desc_leb, notnull.
  destruct (isnull c) eqn:Ec; simpl; auto.
  destruct (isnull b) eqn:Eb; simpl; try discriminate.
  destruct (isnull a) eqn:Ea; simpl; try discriminate.
  intros L1 L2. exact (cell_le_trans _ _ _ L2 L1).
Qed.

#[global] Instance by_value_desc_total : Total by_value_desc.
Proof. intros x y. apply desc_leb_total. Qed.

#[global] Instance by_value_desc_trans : Transitive by_value_desc.
Proof. intros x y z. apply desc_leb_trans. Qed.

(** ** Counting, distinct values, modes *)

Lemma cell_eqb_NA v : cell_eqb v NA = false.
Proof. destruct v; reflexivity. Qed.

Lemma occurrences_eqb u u' vs :
  cell_eqb u u' = true -> occurrences u vs = occurrences u' vs.
Proof.
  intros E. unfold occurrences. f_equal.
  apply List.filter_ext. intros c. apply cell_eqb_congr, E.
Qed.

Lemma occurrences_notnull v vs :
  occurrences v (List.filter notnull vs) = occurrences v vs.
Proof.
  unfold occurrences. induction vs as [|a r IH]; [reflexivity|].
  simpl. unfold notnull at 1. destruct (isnull a) eqn:Ea; simpl.
  - destruct a; try discriminate. rewrite cell_eqb_NA. exact IH.
  - destruct (cell_eqb v a); simpl; congruence.
Qed.

Lemma distinct_In x vs : In x (distinct vs) -> In x vs.
Proof.
  induction vs as [|v r IH]; simpl; [tauto|].
  intros [E|I]; [left; exact E|].
  apply List.filter_In in I. right. apply IH, I.
Qed.

Lemma distinct_covers x vs :
  In x vs -> isnull x = false ->
  exists y, In y (distinct vs) /\ cell_eqb y x = true.
Proof.
  intros I N. induction vs as [|v r IH]; simpl in *; [tauto|].
  destruct I as [E|I].
  - subst v. exists x. split; [left; reflexivity|]. apply cell_eqb_refl, N.
  - destruct (IH I) as (y & Iy & Ey).
    destruct (cell_eqb v y) eqn:Evy.
    + exists v. split; [left; reflexivity|]. eapply cell_eqb_trans; eauto.
    + exists y. split; [|exact Ey]. right. apply List.filter_In.
      split; [exact Iy|]. rewrite Evy. reflexivity.
Qed.


Section Maximum.
Context {A : Type} (f : A -> nat).

Lemma maximum_ge d ds : In d ds -> f d <= fold_right Nat.max 0 (map f ds).
Proof.
  induction ds as [|a r IH]; simpl; [tauto|].
  intros [E|I]; [subst; lia|]. specialize (IH I). lia.
Qed.

Lemma maximum_attained ds :
  ds <> [] -> exists d, In d ds /\ f d = fold_right Nat.max 0 (map f ds).
Proof.
  induction ds as [|a r IH]; [congruence|]. intros _. simpl.
  destruct r as [|b r'].
  - exists a. split; [left; reflexivity|]. simpl. lia.
  - destruct IH as (d & Id & Ed); [congruence|].
    destruct (Nat.le_ge_cases (f a) (fold_right Nat.max 0 (map f (b :: r')))) as [L|L].
    + exists d. split; [right; exact Id|]. rewrite Ed. lia.
    + exists a. split; [left; reflexivity|]. lia.
Qed.
End Maximum.

Lemma same_kind_true vs :
  (forall u v, In u vs -> In v vs -> kind u = kind v) -> same_kind vs = true.
Proof.
  destruct vs as [|a r]; [reflexivity|]. intros K. simpl.
  apply forallb_forall. intros w I. apply Nat.eqb_eq.
  apply K; [right; exact I|left; reflexivity].
Qed.

(** The head of a sorted list is the first of its values. *)
Lemma merge_sort_head (vs : list cell) :
  vs <> [] ->
  exists m rest, merge_sort cell_le vs = m :: rest /\ In m vs /\
                 forall c, In c vs -> cell_le m c.
Proof.
  intros NE.
  pose proof (merge_sort_Permutation cell_le vs) as P.
  pose proof (StronglySorted_merge_sort cell_le vs) as S.
  destruct (merge_sort cell_le vs) as [|m rest] eqn:E.
  - apply Permutation_nil in P. congruence.
  - exists m, rest. split; [reflexivity|]. split.
    + eapply Permutation_in; [exact P|left; reflexivity].
    + intros c I. apply Permutation_sym in P.
      pose proof (Permutation_in _ P I) as [Ec|Ic].
      * subst c. destruct (cell_le_total m m); assumption.
      * apply StronglySorted_inv in S. destruct S as [_ F].
        rewrite List.Forall_forall in F. apply F, Ic.
Qed.

(** [mode()[0]] of a column that has a value is a most frequent value,
    and the first of them in order when the values compare. *)
Lemma mode0_spec vs :
  (exists v, In v vs /\ isnull v = false) ->
  exists m, mode0 vs = Ok m /\ most_frequent vs m /\
            (one_kind vs -> first_of_ties vs m).
Proof.
  intros (v0 & I0 & N0).
  set (xs := List.filter notnull vs).
  set (ds := distinct xs).
  set (mx := max_occurrences ds xs).
  set (cands := List.filter (fun v => Nat.eqb (occurrences v xs) mx) ds).
  assert (Hxs : forall x, In x xs <-> In x vs /\ isnull x = false).
  { intros x. unfold xs. rewrite List.filter_In. unfold notnull.
    destruct (isnull x); simpl; intuition congruence. }
  assert (Hds : forall x, In x ds -> In x vs /\ isnull x = false).
  { intros x I. apply Hxs, distinct_In, I. }
  assert (Hcands : forall x, In x cands <-> In x ds /\ occurrences x xs = mx).
  { intros x. unfold cands. rewrite List.filter_In, Nat.eqb_eq. tauto. }
  assert (NE : cands <> []).
  { destruct (maximum_attained (fun v => occurrences v xs) ds) as (d & Id & Ed).
    - destruct (distinct_covers v0 xs) as (y & Iy & _); [apply Hxs; auto|exact N0|].
      intros E. fold ds in Iy. rewrite E in Iy. destruct Iy.
    - intros E. assert (In d cands) as I by (apply Hcands; split; [exact Id|exact Ed]).
      rewrite E in I. destruct I. }
  assert (MF : forall m, In m cands -> most_frequent vs m).
  { intros m Im. apply Hcands in Im. destruct Im as [Imd Em].
    destruct (Hds m Imd) as [Imv Nm].
    split; [exact Imv|]. split; [exact Nm|].
    intros u Iu Nu.
    destruct (distinct_covers u xs) as (y & Iy & Ey); [apply Hxs; auto|exact Nu|].
    fold ds in Iy.
    rewrite <- (occurrences_notnull u vs), <- (occurrences_notnull m vs).
    fold xs. rewrite <- (occurrences_eqb y u xs Ey), Em.
    apply (maximum_ge (fun v => occurrences v xs)), Iy. }
  assert (SK : one_kind vs -> same_kind cands = true).
  { intros K. apply same_kind_true. intros u v Iu Iv.
    apply Hcands in Iu, Iv. destruct Iu as [Iu _], Iv as [Iv _].
    apply Hds in Iu, Iv. apply K; tauto. }
  unfold mode0, mode, sort_values_of_kind.
  fold xs. fold ds. fold mx. fold cands.
  destruct (same_kind cands) eqn:Sk.
  - destruct (merge_sort_head cands NE) as (m & rest & Es & Im & Lm).
    exists m. rewrite Es. split; [reflexivity|]. split; [apply MF, Im|].
    intros _ u Iu Nu Eo.
    apply Hcands in Im. destruct Im as [Imd Em].
    destruct (distinct_covers u xs) as (y & Iy & Ey); [apply Hxs; auto|exact Nu|].
    fold ds in Iy.
    apply (cell_le_eqb_r m y u Ey). apply Lm.
    apply Hcands. split; [exact Iy|].
    rewrite (occurrences_eqb y u xs Ey), <- Em.
    unfold xs. rewrite !occurrences_notnull. exact Eo.
  - destruct cands as [|m rest] eqn:Ec; [congruence|].
    exists m. split; [reflexivity|]. split; [apply MF; left; reflexivity|].
    intros K. specialize (SK K). congruence.
Qed.

(** ** Means *)





Lemma fillna_NA vs : fillna NA vs = vs.
Proof.
  unfold fillna. induction vs as [|a r IH]; simpl; [reflexivity|].
  rewrite IH. destruct a; reflexivity.
Qed.

(** ** The store: each step acts on the contents behind the reference *)

Lemma world_eta w : mkWorld (store w) (screen w) = w.
Proof. destruct w; reflexivity. Qed.

Lemma store_unchanged (w : world) l d :
  store w !! l = Some d -> mkWorld (<[l := d]> (store w)) (screen w) = w.
Proof. intros E. rewrite insert_id by exact E. apply world_eta. Qed.

Lemma fresh_not_allocated (m : gmap nat DataFrame) l d :
  m !! l = Some d -> fresh (dom m) <> l.
Proof.
  intros E F. apply (is_fresh (dom m)). rewrite F.
  apply elem_of_dom. exists d. exact E.
Qed.

Lemma fill_column_run `{Arithmetic} l c w d :
  store w !! l = Some d ->
  fill_column l c w =
    (fst (fill_column_on d c),
     mkWorld (<[l := snd (fill_column_on d c)]> (store w)) (screen w)).
Proof.
  intros E. unfold fill_column, fill_column_on, bind, load, lift, mutate, ret.
  rewrite E. destruct (getitem d c) as [s|e]; simpl.
  - destruct (any_null s); simpl.
    + destruct (is_numeric_dtype s); simpl.
      * rewrite E. reflexivity.
      * destruct (mode0 (s_values s)); simpl.
        -- rewrite E. reflexivity.
        -- rewrite store_unchanged by exact E. reflexivity.
    + rewrite store_unchanged by exact E. reflexivity.
  - rewrite store_unchanged by exact E. reflexivity.
Qed.

Lemma fill_columns_run `{Arithmetic} l cols : forall w d,
  store w !! l = Some d ->
  for_each cols (fill_column l) w =
    (fst (fill_columns_on cols d),
     mkWorld (<[l := snd (fill_columns_on cols d)]> (store w)) (screen w)).
Proof.
  induction cols as [|c r IH]; intros w d E; simpl.
  - unfold ret. rewrite store_unchanged by exact E. reflexivity.
  - unfold bind. rewrite (fill_column_run l c w d E).
    destruct (fill_column_on d c) as [[[]|e] d']; simpl; [|reflexivity].
    rewrite (IH _ d') by (simpl; apply lookup_insert_eq).
    simpl. rewrite insert_insert_eq. reflexivity.
Qed.

Lemma handle_missing_values_run `{Arithmetic} st l w d :
  store w !! l = Some d ->
  exists out,
    handle_missing_values st l w =
      (fst (handle_missing_values_on st d),
       mkWorld (<[l := snd (handle_missing_values_on st d)]> (store w))
               (screen w ++ out)).
Proof.
  intros E. destruct st; simpl.
  - exists []. unfold ret. rewrite app_nil_r, store_unchanged by exact E. reflexivity.
  - eexists. unfold bind, mutate, load, emit. rewrite E. simpl.
    rewrite lookup_insert_eq. simpl. reflexivity.
  - unfold bind, load. rewrite E.
    rewrite (fill_columns_run l (labels d) w d E).
    destruct (fill_columns_on (labels d) d) as [[[]|e] d']; simpl.
    + eexists. unfold emit. simpl. reflexivity.
    + exists []. rewrite app_nil_r. reflexivity.
Qed.

Lemma drop_columns_run cols l w d :
  store w !! l = Some d ->
  match drop_columns_on cols d with
  | Ok d' =>
      exists l' w', drop_columns cols l w = (Ok l', w') /\
        store w' !! l' = Some d' /\
        (forall k x, store w !! k = Some x -> k <> l -> store w' !! k = Some x) /\
        (cols = [] -> l' = l) /\ (cols <> [] -> store w !! l' = None)
  | Raise e => drop_columns cols l w = (Raise e, w)
  end.
Proof.
  intros E. destruct cols as [|c r].
  - simpl. exists l, w. unfold ret. repeat split; auto. congruence.
  - unfold drop_columns, drop_columns_on, bind, load, lift, alloc, emit.
    rewrite E. destruct (drop (c :: r) d) as [d'|e]; simpl; [|reflexivity].
    eexists _, _. split; [reflexivity|]. simpl.
    split; [apply lookup_insert_eq|].
    split; [|split; [congruence|]].
    + intros k x Ek Nk. rewrite lookup_insert_ne; [exact Ek|].
      apply fresh_not_allocated with x, Ek.
    + intros _. apply not_elem_of_dom, is_fresh.
Qed.

(** The cleaner leaves the object behind [df] as it was and produces the
    working copy in another object; what that object holds is
    [working_copy] of the contents of [df]. *)
Lemma cleaner_run `{Arithmetic} ui df w d :
  store w !! df = Some d ->
  exists r w',
    cleaner ui df w = (r, w') /\
    store w' !! df = Some d /\
    match working_copy (missing_value_strategy ui) (columns_to_drop ui) d with
    | Ok d' => exists l, r = Ok l /\ l <> df /\ store w' !! l = Some d'
    | Raise e => r = Raise e
    end.
Proof.
  intros E. unfold cleaner, working_copy.
  set (l1 := fresh (dom (store w))).
  assert (N1 : l1 <> df) by (apply fresh_not_allocated with d, E).
  unfold bind at 1. unfold copy, bind at 1. unfold load at 1. rewrite E.
  unfold alloc. fold l1. unfold bind at 1. unfold emit at 1. simpl.
  unfold bind at 1. unfold emit at 1. simpl. unfold bind at 1.
  match goal with |- context [handle_missing_values ?st l1 ?w1] =>
    destruct (handle_missing_values_run st l1 w1 d) as (out & R);
      [simpl; apply lookup_insert_eq|]; rewrite R; clear R end.
  simpl store. rewrite insert_insert_eq.
  destruct (handle_missing_values_on (missing_value_strategy ui) d) as [[[]|e] d1]; simpl.
  - unfold bind at 1. unfold emit at 1. simpl.
    match goal with |- context [drop_columns ?cs l1 ?w2] =>
      pose proof (drop_columns_run cs l1 w2 d1) as R end.
    simpl in R. specialize (R (lookup_insert_eq _ _ _)).
    destruct (drop_columns_on (columns_to_drop ui) d1) as [d'|e].
    + destruct R as (l' & w' & R & Sl & Keep & Same & New).
      rewrite R. eexists _, _. split; [reflexivity|]. split.
      * apply Keep; [|congruence]. rewrite lookup_insert_ne by exact N1. exact E.
      * exists l'. split; [reflexivity|]. split; [|exact Sl].
        destruct (columns_to_drop ui) as [|c r].
        -- rewrite Same by reflexivity. exact N1.
        -- intros F. specialize (New ltac:(discriminate)). rewrite F in New.
           rewrite lookup_insert_ne in New by exact N1. congruence.
    + rewrite R. eexists _, _. split; [reflexivity|]. split; [|reflexivity].
      simpl. rewrite lookup_insert_ne by exact N1. exact E.
  - eexists _, _. split; [reflexivity|]. split; [|reflexivity].
    simpl. rewrite lookup_insert_ne by exact N1. exact E.
Qed.

(** ** Columns under distinct labels *)

Lemma lookup_column_skip c pre rest :
  ~ In c (map fst pre) -> lookup_column c (pre ++ rest) = lookup_column c rest.
Proof.
  induction pre as [|[n x] p IH]; simpl; [reflexivity|].
  intros N. destruct (String.eqb n c) eqn:E.
  - apply String.eqb_eq in E. tauto.
  - apply IH. tauto.
Qed.

Lemma lookup_column_In c s cs :
  NoDup (map fst cs) -> In (c, s) cs -> lookup_column c cs = Some s.
Proof.
  induction cs as [|[n x] r IH]; simpl; [tauto|].
  intros ND I. apply NoDup_cons in ND. destruct ND as [Nn ND].
  destruct I as [I|I].
  - injection I as -> ->. rewrite String.eqb_refl. reflexivity.
  - destruct (String.eqb n c) eqn:E; [|apply IH; assumption].
    apply String.eqb_eq in E. subst n. exfalso. apply Nn.
    apply list_elem_of_In. apply in_map_iff. exists (c, s). auto.
Qed.

Lemma assign_column_skip c s pre rest :
  ~ In c (map fst pre) ->
  assign_column c s (pre ++ rest) = (pre ++ assign_column c s rest)%list.
Proof.
  induction pre as [|[n x] p IH]; simpl; [reflexivity|].
  intros N. destruct (String.eqb n c) eqn:E.
  - apply String.eqb_eq in E. tauto.
  - f_equal. apply IH. tauto.
Qed.

Lemma assign_column_same c s cs :
  lookup_column c cs = Some s -> assign_column c s cs = cs.
Proof.
  induction cs as [|[n x] r IH]; simpl; [discriminate|].
  destruct (String.eqb n c); [congruence|].
  intros E. f_equal. apply IH, E.
Qed.

(** One turn of the loop, by what it does to the column. *)
Lemma fill_column_on_series `{Arithmetic} d c s :
  getitem d c = Ok s ->
  fill_column_on d c =
    match fill_series s with
    | Ok s' => (Ok tt, setitem c s' d)
    | Raise e => (Raise e, d)
    end.
Proof.
  intros G. unfold fill_column_on, fill_series. rewrite G.
  destruct (any_null s).
  - destruct (is_numeric_dtype s); [reflexivity|].
    destruct (mode0 (s_values s)); reflexivity.
  - unfold setitem. unfold getitem in G.
    destruct (lookup_column c (columns d)) eqn:L; [|discriminate].
    injection G as ->. rewrite (assign_column_same _ _ _ L).
    destruct d; reflexivity.
Qed.

(** The loop over distinct labels fills every column on its own. *)
Lemma fill_columns_on_distinct `{Arithmetic} n : forall todo done,
  NoDup (map fst (done ++ todo)) ->
  (forall c s, In (c, s) todo -> exists s', fill_series s = Ok s') ->
  exists todo',
    fill_columns_on (map fst todo) (mkDataFrame n (done ++ todo))
      = (Ok tt, mkDataFrame n (done ++ todo')) /\
    Forall2 (fun old new => fst new = fst old /\ fill_series (snd old) = Ok (snd new))
            todo todo'.
Proof.
  induction todo as [|[c s] r IH]; intros done ND F.
  - exists []. split; [reflexivity|constructor].
  - destruct (F c s) as [s' Es]; [left; reflexivity|].
    assert (Nc : ~ In c (map fst done)).
    { rewrite map_app in ND. apply NoDup_app in ND. destruct ND as (_ & D & _).
      intros I. apply (D c); [apply list_elem_of_In, I|]. simpl. left. }
    assert (G : getitem (mkDataFrame n (done ++ (c, s) :: r)) c = Ok s).
    { unfold getitem. simpl. rewrite lookup_column_skip by exact Nc.
      simpl. rewrite String.eqb_refl. reflexivity. }
    simpl. rewrite (fill_column_on_series _ _ _ G), Es.
    unfold setitem. simpl. rewrite assign_column_skip by exact Nc.
    simpl. rewrite String.eqb_refl.
    destruct (IH (done ++ [(c, s')])) as (r' & Er & Fr).
    + rewrite <- app_assoc. simpl. rewrite map_app in *. simpl in *. exact ND.
    + intros c0 s0 I. apply (F c0 s0). right. exact I.
    + exists ((c, s') :: r'). rewrite <- app_assoc in Er. simpl in Er.
      rewrite Er, <- app_assoc. simpl. split; [reflexivity|].
      constructor; [split; [reflexivity|exact Es]|exact Fr].
Qed.

Lemma fill_series_tidy `{Arithmetic} d c s :
  tidy d -> In (c, s) (columns d) -> exists s', fill_series s = Ok s'.
Proof.
  intros T I. unfold fill_series.
  destruct (any_null s) eqn:A; [|eauto].
  destruct (is_numeric_dtype s) eqn:Nu; [eauto|].
  destruct (mode0_spec (s_values s)) as (m & Em & _).
  - eapply tidy_inferred; eauto.
  - rewrite Em. eauto.
Qed.

(** The fill strategy on a table as the loader gives it: it completes, and
    the object then holds the columns filled one by one. *)
Lemma fill_missing_run `{Arithmetic} w l d :
  store w !! l = Some d -> tidy d ->
  exists cs',
    handle_missing_values FillMissing l w =
      (Ok tt, mkWorld (<[l := mkDataFrame (nrows d) cs']> (store w))
                      (screen w ++ [Write "Missing values have been filled."])) /\
    Forall2 (fun old new => fst new = fst old /\ fill_series (snd old) = Ok (snd new))
            (columns d) cs'.
Proof.
  intros E T.
  destruct (fill_columns_on_distinct (nrows d) (columns d) []) as (cs' & R & F).
  - simpl. apply T.
  - intros c s I. eapply fill_series_tidy; eauto.
  - exists cs'. split; [|exact F].
    unfold handle_missing_values, bind, load. rewrite E.
    rewrite (fill_columns_run l (labels d) w d E).
    unfold labels. simpl in R. destruct d as [n cs]. simpl in *. rewrite R.
    reflexivity.
Qed.

(** ** The fill strategy *)

Lemma Forall2_impl_In {A B} (P Q : A -> B -> Prop) l l' :
  Forall2 P l l' -> (forall x y, In x l -> P x y -> Q x y) -> Forall2 Q l l'.
Proof.
  induction 1 as [|x y l l' Pxy F IH]; intros I; constructor.
  - apply I; [left; reflexivity|exact Pxy].
  - apply IH. intros a b Ia. apply I. right. exact Ia.
Qed.






Lemma tidy_people : tidy people.
Proof.
  split.
  - unfold labels. simpl.
    repeat (apply NoDup_cons; split;
            [rewrite list_elem_of_In; simpl; intuition discriminate|]).
    apply NoDup_nil_2.
  - intros col s [[= <- <-]|[[= <- <-]|[]]] Nu A; try discriminate.
Qed.


(** C2.  The file [unscored] has a column with no value at all.  The fill
    strategy runs to the end and announces that the missing values have
    been filled, yet the working copy still counts two missing entries in
    that column. *)
Theorem fill_missing_leaves_empty_column `{Arithmetic} :
  let run := cleaner (selection FillMissing [] Histogram) 0 (loaded unscored) in
  fst run = Ok 1 /\
  In (Write "Missing values have been filled.") (screen (snd run)) /\
  exists d', store (snd run) !! 1 = Some d' /\
             isnull_sum d' = [("id", 0); ("score", 2)].
Proof.
  split; [vm_compute; reflexivity|].
  split; [vm_compute; tauto|].
  exists unscored. split; vm_compute; reflexivity.
Qed.

Lemma all_null_any vs :
  vs <> [] -> Forall (fun v => isnull v = true) vs -> existsb isnull vs = true.
Proof.
  destruct vs as [|a r]; [congruence|]. intros _ F.
  apply Forall_cons in F. destruct F as [Ea _]. simpl. rewrite Ea. reflexivity.
Qed.

Lemma all_null_numbers vs :
  Forall (fun v => isnull v = true) vs -> numbers vs = [].
Proof.
  induction 1 as [|a r Ea F IH]; [reflexivity|].
  destruct a; try discriminate. exact IH.
Qed.

Lemma Forall2_In_l {A B} (P : A -> B -> Prop) l l' x :
  Forall2 P l l' -> In x l -> exists y, In y l' /\ P x y.
Proof.
  induction 1 as [|a b l l' Pab F IH]; simpl; [tauto|].
  intros [<-|I]; [eauto|]. destruct (IH I) as (y & Iy & Py). eauto.
Qed.

Lemma Forall2_fst_labels (P : Series -> Series -> Prop) (cs cs' : list (string * Series)) :
  Forall2 (fun old new => fst new = fst old /\ P (snd old) (snd new)) cs cs' ->
  map fst cs' = map fst cs.
Proof.
  induction 1 as [|a b l l' [E _] F IH]; simpl; [reflexivity|]. congruence.
Qed.

(** C10.  A numeric column all of whose entries are missing: the fill
    strategy completes, the fill value is the mean of no value at all,
    which is itself missing, and the column comes out as it went in, every
    entry still missing. *)
Theorem fill_missing_all_missing_numeric `{Arithmetic} w l d col s :
  store w !! l = Some d -> tidy d ->
  In (col, s) (columns d) -> is_numeric_dtype s = true ->
  Forall (fun v => isnull v = true) (s_values s) ->
  mean s = NA /\
  exists w' d',
    handle_missing_values FillMissing l w = (Ok tt, w') /\
    store w' !! l = Some d' /\
    getitem d' col = Ok s.
Proof.
  intros E T I Nu All.
  assert (M : mean s = NA).
  { unfold mean. rewrite (all_null_numbers _ All). reflexivity. }
  split; [exact M|].
  destruct (fill_missing_run w l d E T) as (cs' & R & F).
  eexists _, _. split; [exact R|]. simpl.
  split; [apply lookup_insert_eq|].
  destruct (Forall2_In_l _ _ _ _ F I) as ([c' s'] & I' & Ec & Es). simpl in *.
  subst c'. unfold getitem. simpl.
  rewrite (lookup_column_In col s' cs').
  - f_equal. unfold fill_series, fillna_series in Es. rewrite Nu, M, fillna_NA in Es.
    assert (O : is_object s = false)
      by (unfold is_numeric_dtype in Nu; unfold is_object; destruct (s_dtype s);
          congruence).
    rewrite O in Es.
    destruct (any_null s); destruct s; simpl in *; congruence.
  - rewrite (Forall2_fst_labels (fun a b => fill_series a = Ok b) _ _ F). apply T.
  - exact I'.
Qed.

Lemma tidy_unscored : tidy unscored.
Proof.
  split.
  - unfold labels. simpl.
    repeat (apply NoDup_cons; split;
            [rewrite list_elem_of_In; simpl; intuition discriminate|]).
    apply NoDup_nil_2.
  - intros col s [[= <- <-]|[[= <- <-]|[]]] Nu A; discriminate.
Qed.

Lemma fill_missing_all_missing_numeric_witness :
  @mean sample_arithmetic (mkSeries Float64 [NA; NA]) = NA /\
  exists w' d',
    @handle_missing_values sample_arithmetic FillMissing 0 (loaded unscored) = (Ok tt, w') /\
    store w' !! 0 = Some d' /\
    getitem d' "score" = Ok (mkSeries Float64 [NA; NA]).
Proof.
  apply (@fill_missing_all_missing_numeric sample_arithmetic (loaded unscored) 0 unscored
           "score" (mkSeries Float64 [NA; NA])).
  - reflexivity.
  - exact tidy_unscored.
  - simpl. tauto.
  - reflexivity.
  - simpl. repeat constructor.
Defined.

(** ** Dropping columns *)

Lemma mem_In x xs : mem x xs = true <-> In x xs.
Proof.
  unfold mem. rewrite existsb_exists. split.
  - intros (y & I & E). apply String.eqb_eq in E. subst. exact I.
  - intros I. exists x. split; [exact I|apply String.eqb_refl].
Qed.

Lemma drop_known cols d :
  (forall c, In c cols -> In c (labels d)) ->
  drop cols d =
    Ok (mkDataFrame (nrows d)
          (List.filter (fun c => negb (mem (fst c) cols)) (columns d))).
Proof.
  intros K. unfold drop.
  destruct (List.find _ cols) as [c|] eqn:F; [|reflexivity].
  apply List.find_some in F. destruct F as [I N].
  apply K, mem_In in I. rewrite I in N. discriminate.
Qed.

Lemma filter_sublist {A} (f : A -> bool) l : sublist (List.filter f l) l.
Proof.
  induction l as [|a r IH]; simpl; [constructor|].
  destruct (f a); [apply sublist_skip|apply sublist_cons]; exact IH.
Qed.

Lemma filter_none {A} (f : A -> bool) l :
  (forall x, In x l -> f x = false) -> List.filter f l = [].
Proof.
  induction l as [|a r IH]; simpl; [reflexivity|]. intros F.
  rewrite (F a) by (left; reflexivity). apply IH. intros x I. apply F. right. exact I.
Qed.

(** C5.  For a drop set taken from the labels of the working copy, the
    drop step returns a table with the same rows whose columns are those
    of the working copy that are not in the drop set, in their order and
    with their contents; when every label is in the drop set the table has
    no column, and the step does not raise. *)
Theorem drop_removes_exactly w l d cols :
  store w !! l = Some d ->
  (forall c, In c cols -> In c (labels d)) ->
  exists l' w' d',
    drop_columns cols l w = (Ok l', w') /\
    store w' !! l' = Some d' /\
    nrows d' = nrows d /\
    sublist (columns d') (columns d) /\
    (forall c, In c (columns d) -> (In c (columns d') <-> ~ In (fst c) cols)) /\
    ((forall c, In c (labels d) -> In c cols) -> columns d' = []).
Proof.
  intros E K.
  pose proof (drop_columns_run cols l w d E) as R.
  destruct cols as [|c0 r].
  - simpl in R. destruct R as (l' & w' & R & Sl & _).
    exists l', w', d. split; [exact R|]. split; [exact Sl|].
    split; [reflexivity|]. split; [reflexivity|]. split.
    + intros c I. simpl. tauto.
    + intros A. destruct (columns d) as [|[n x] cs] eqn:C; [reflexivity|].
      destruct (A n). unfold labels. rewrite C. left. reflexivity.
  - unfold drop_columns_on in R. rewrite (drop_known _ _ K) in R.
    destruct R as (l' & w' & R & Sl & _).
    eexists l', w', _. split; [exact R|]. split; [exact Sl|]. cbn [nrows columns].
    split; [reflexivity|]. split; [apply filter_sublist|]. split.
    + intros c I. rewrite List.filter_In. split.
      * intros [_ Hn] Hin. apply (proj2 (mem_In (fst c) (c0 :: r))) in Hin.
        rewrite Hin in Hn. discriminate.
      * intros Hn. split; [exact I|].
        destruct (mem (fst c) (c0 :: r)) eqn:Hm; [|reflexivity].
        apply mem_In in Hm. tauto.
    + intros A. apply filter_none. intros x I.
      rewrite (proj2 (mem_In _ _)); [reflexivity|].
      apply A. unfold labels. apply in_map, I.
Qed.

Lemma drop_removes_exactly_witness :
  exists l' w' d',
    drop_columns ["age"; "city"] 0 (loaded people) = (Ok l', w') /\
    store w' !! l' = Some d' /\
    nrows d' = 3 /\
    sublist (columns d') (columns people) /\
    (forall c, In c (columns people) ->
               (In c (columns d') <-> ~ In (fst c) ["age"; "city"])) /\
    ((forall c, In c (labels people) -> In c ["age"; "city"]) -> columns d' = []).
Proof.
  apply (drop_removes_exactly (loaded people) 0 people ["age"; "city"]).
  - reflexivity.
  - simpl. tauto.
Defined.

(** ** The visualizer *)

(** C6.  The correlation heat map on a working copy without a numeric
    column: the visualizer returns normally, and all it shows is its two
    headings and the warning; no figure is drawn. *)
Theorem heatmap_without_numbers `{Library} ui w l d :
  store w !! l = Some d ->
  plot_type ui = CorrelationHeatmap ->
  (forall c, In c (columns d) -> is_number (snd c) = false) ->
  visualizer ui l w =
    (Ok tt,
     mkWorld (store w)
       (screen w ++
        [Header "Data Visualization";
         Subheader "Correlation Heatmap";
         Warning "No numerical columns available to create a heatmap."])).
Proof.
  intros E P N.
  assert (S0 : select_dtypes is_number d = []).
  { unfold select_dtypes. rewrite filter_none; [reflexivity|exact N]. }
  unfold visualizer, bind, emit, load. simpl. rewrite E, P.
  unfold bind, emit. simpl. rewrite S0. simpl.
  rewrite <- !app_assoc. reflexivity.
Qed.

Lemma heatmap_without_numbers_witness :
  @visualizer sample_library (selection NoStrategy [] CorrelationHeatmap) 0 (loaded cities) =
    (Ok tt,
     mkWorld (store (loaded cities))
       (screen (loaded cities) ++
        [Header "Data Visualization";
         Subheader "Correlation Heatmap";
         Warning "No numerical columns available to create a heatmap."])).
Proof.
  apply (@heatmap_without_numbers sample_library
           (selection NoStrategy [] CorrelationHeatmap) (loaded cities) 0 cities).
  - reflexivity.
  - reflexivity.
  - intros c [<-|[]]. reflexivity.
Defined.

(** ** The bar chart *)


Section Pairwise.
Context {A : Type} (R : A -> A -> Prop) (R_sym : forall x y, R x y -> R y x).

End Pairwise.



Lemma selectbox_In options choice x :
  selectbox options choice = Some x -> In x options.
Proof.
  unfold selectbox. destruct (options !! choice) as [c|] eqn:L.
  - intros [= <-]. apply list_elem_of_In. eapply list_elem_of_lookup_2, L.
  - destruct options as [|a r]; simpl; [discriminate|]. intros [= <-]. left. reflexivity.
Qed.

Lemma chosen_Some o x : chosen o = Some x -> o = Some x.
Proof. destruct o as [[|a s]|]; simpl; congruence. Qed.









(** ** The summary report *)

Lemma append_assoc (a b c : string) : ((a ++ b) ++ c = a ++ (b ++ c))%string.
Proof.
  induction a as [|x a IH]; [reflexivity|].
  change (String x ((a ++ b) ++ c) = String x (a ++ (b ++ c)))%string.
  f_equal. exact IH.
Qed.

Lemma concat_cons (x y : string) (r : list string) :
  String.concat "" (x :: y :: r) = (x ++ String.concat "" (y :: r))%string.
Proof. reflexivity. Qed.

Lemma describe_columns d : columns d <> [] -> describe d = Ok (Describe d).
Proof. unfold describe. destruct (columns d); [congruence|reflexivity]. Qed.

(** ** The preview *)

Section Preview.
Context `{Library}.

Lemma display_column_run l c w d s :
  store w !! l = Some d -> getitem d c = Ok s ->
  display_column l c w =
    (Ok tt, mkWorld (<[l := setitem c (display_series s) d]> (store w)) (screen w)).
Proof.
  intros E G. unfold display_column, bind, load, lift, mutate, ret, display_series.
  rewrite E, G. destruct (is_object s).
  - rewrite E. reflexivity.
  - unfold setitem. unfold getitem in G.
    destruct (lookup_column c (columns d)) eqn:L; [|discriminate].
    injection G as ->. rewrite (assign_column_same _ _ _ L).
    replace (mkDataFrame (nrows d) (columns d)) with d by (destruct d; reflexivity).
    rewrite store_unchanged by exact E. reflexivity.
Qed.

Lemma display_columns_run l n : forall todo done w,
  NoDup (map fst (done ++ todo)) ->
  store w !! l = Some (mkDataFrame n (done ++ todo)) ->
  for_each (map fst todo) (display_column l) w =
    (Ok tt,
     mkWorld (<[l := mkDataFrame n
                       (done ++ map (fun c => (fst c, display_series (snd c))) todo)]>
                (store w))
             (screen w)).
Proof.
  induction todo as [|[c s] r IH]; intros done w ND E.
  - simpl. unfold ret. rewrite store_unchanged by exact E. reflexivity.
  - assert (Nc : ~ In c (map fst done)).
    { rewrite map_app in ND. apply NoDup_app in ND. destruct ND as (_ & D & _).
      intros I. apply (D c); [apply list_elem_of_In, I|]. simpl. left. }
    assert (G : getitem (mkDataFrame n (done ++ (c, s) :: r)) c = Ok s).
    { unfold getitem. simpl. rewrite lookup_column_skip by exact Nc.
      simpl. rewrite String.eqb_refl. reflexivity. }
    simpl. unfold bind. rewrite (display_column_run l c w _ s E G).
    unfold setitem. simpl. rewrite assign_column_skip by exact Nc.
    simpl. rewrite String.eqb_refl.
    rewrite (IH (done ++ [(c, display_series s)])).
    + simpl. rewrite insert_insert_eq, <- app_assoc. reflexivity.
    + rewrite <- app_assoc. simpl. rewrite map_app in *. simpl in *. exact ND.
    + simpl. rewrite lookup_insert_eq, <- app_assoc. reflexivity.
Qed.

(** [to_display_df] works on a copy: a new object that holds the table
    with its object columns as text. *)
Lemma to_display_df_run l w d :
  store w !! l = Some d -> NoDup (labels d) ->
  to_display_df l w =
    (Ok (fresh (dom (store w))),
     mkWorld (<[fresh (dom (store w)) := display_table d]> (store w)) (screen w)).
Proof.
  intros E ND. unfold to_display_df, copy, bind, load, alloc. rewrite E. simpl.
  rewrite lookup_insert_eq.
  pose proof (display_columns_run (fresh (dom (store w))) (nrows d) (columns d) []) as R.
  simpl in R. unfold labels. rewrite R.
  - simpl. rewrite insert_insert_eq. reflexivity.
  - exact ND.
  - simpl. rewrite lookup_insert_eq. destruct d; reflexivity.
Qed.

Lemma preview_run l w d :
  store w !! l = Some d -> NoDup (labels d) ->
  exists l1 l2,
    l1 <> l /\ l2 <> l /\ store w !! l1 = None /\ store w !! l2 = None /\
    preview l w =
      (Ok tt,
       mkWorld (<[l2 := display_table (head_rows d)]> (<[l1 := head_rows d]> (store w)))
               (screen w ++ [Dataframe (display_table (head_rows d))])).
Proof.
  intros E ND.
  set (l1 := fresh (dom (store w))).
  set (l2 := fresh (dom (<[l1 := head_rows d]> (store w)))).
  assert (F1 : store w !! l1 = None) by apply not_elem_of_dom, is_fresh.
  assert (F2 : <[l1 := head_rows d]> (store w) !! l2 = None)
    by apply not_elem_of_dom, is_fresh.
  assert (N12 : l1 <> l2).
  { intros Eq. rewrite <- Eq, lookup_insert_eq in F2. discriminate. }
  exists l1, l2. split; [intros ->; congruence|].
  split; [intros Eq; rewrite Eq, lookup_insert_ne, E in F2; congruence|].
  split; [exact F1|].
  split; [rewrite lookup_insert_ne in F2 by exact N12; exact F2|].
  unfold preview. unfold bind at 1. unfold load at 1. rewrite E.
  unfold bind at 1. unfold alloc at 1. fold l1.
  unfold bind at 1.
  rewrite (to_display_df_run l1 _ (head_rows d)).
  - simpl. fold l2. unfold bind, load, emit. simpl.
    rewrite lookup_insert_eq. reflexivity.
  - simpl. apply lookup_insert_eq.
  - unfold labels, head_rows. simpl. rewrite map_map. simpl. exact ND.
Qed.

(** C9, as the code has it.  The preview shows the first five rows with
    every column of dtype object turned into text, entry by entry, and
    every other column, numeric or not, as it is; the table it previews
    is left as it was, as is every other object. *)
Theorem preview_coerces_object_columns l w d :
  store w !! l = Some d -> NoDup (labels d) ->
  exists w' shown,
    preview l w = (Ok tt, w') /\
    screen w' = screen w ++ [Dataframe shown] /\
    (forall k x, store w !! k = Some x -> store w' !! k = Some x) /\
    nrows shown = Nat.min 5 (nrows d) /\
    Forall2 (fun old new => fst new = fst old /\ previewed (snd old) (snd new))
            (columns d) (columns shown).
Proof.
  intros E ND.
  destruct (preview_run l w d E ND) as (l1 & l2 & _ & _ & F1 & F2 & R).
  eexists _, _. split; [exact R|]. simpl. split; [reflexivity|].
  split; [|split; [reflexivity|]].
  - intros k x Ek. rewrite !lookup_insert_ne by congruence. exact Ek.
  - unfold display_table, head_rows. cbn [columns]. rewrite map_map.
    clear. induction (columns d) as [|[c s] r IH]; simpl.
    + constructor.
    + constructor; [|exact IH]. simpl. split; [reflexivity|].
      unfold previewed, display_series, is_object. simpl.
      destruct (s_dtype s); simpl; try reflexivity.
      split; reflexivity.
Qed.
End Preview.

Lemma preview_coerces_object_columns_witness :
  exists w' shown,
    @preview sample_library 0 (loaded events) = (Ok tt, w') /\
    screen w' = screen (loaded events) ++ [Dataframe shown] /\
    (forall k x, store (loaded events) !! k = Some x -> store w' !! k = Some x) /\
    nrows shown = Nat.min 5 (nrows events) /\
    Forall2 (fun old new => fst new = fst old /\
                            @previewed sample_library (snd old) (snd new))
            (columns events) (columns shown).
Proof.
  apply (@preview_coerces_object_columns sample_library 0 (loaded events) events).
  - reflexivity.
  - unfold labels. simpl.
    repeat (apply NoDup_cons; split;
            [rewrite list_elem_of_In; simpl; intuition discriminate|]).
    apply NoDup_nil_2.
Defined.

(** The column of dates is not numeric, and the preview shows it as it is,
    timestamps and not text; only the object column is text. *)
Lemma preview_keeps_dates :
  is_numeric_dtype (mkSeries Datetime64 [Stamp 0; Stamp 86400]) = false /\
  screen (snd (@preview sample_library 0 (loaded events))) =
    [Dataframe
       (mkDataFrame 2 [("when", mkSeries Datetime64 [Stamp 0; Stamp 86400]);
                       ("what", mkSeries Object [Str "open"; Str "nan"])])].
Proof. split; vm_compute; reflexivity. Qed.

(** ** Exceptions *)

(** Steps that only read the store. *)
Lemma keeps_store_ret {A} (a : A) : keeps_store (ret a).
Proof. intros w. reflexivity. Qed.

Lemma keeps_store_lift {A} (r : result A) : keeps_store (lift r).
Proof. intros w. reflexivity. Qed.

Lemma keeps_store_emit o : keeps_store (emit o).
Proof. intros w. reflexivity. Qed.

Lemma keeps_store_load l : keeps_store (load l).
Proof. intros w. unfold load. destruct (store w !! l); reflexivity. Qed.

Lemma keeps_store_bind {A B} (m : M A) (k : A -> M B) :
  keeps_store m -> (forall a, keeps_store (k a)) -> keeps_store (bind m k).
Proof.
  intros Km Kk w. unfold bind. specialize (Km w).
  destruct (m w) as [[a|e] w1]; simpl in *; [|exact Km].
  rewrite (Kk a w1). exact Km.
Qed.

Lemma keeps_store_plot `{Library} c title : keeps_store (plot c title).
Proof.
  unfold plot. destruct (draw c); [apply keeps_store_lift|apply keeps_store_emit].
Qed.

Ltac keeps_store_steps :=
  repeat first
    [ apply keeps_store_bind; [|intros ?]
    | apply keeps_store_emit
    | apply keeps_store_load
    | apply keeps_store_lift
    | apply keeps_store_ret
    | apply keeps_store_plot
    | match goal with
      | |- keeps_store (match ?x with _ => _ end) => destruct x
      end ].

Lemma keeps_store_visualizer `{Library} ui l : keeps_store (visualizer ui l).
Proof. unfold visualizer. keeps_store_steps. Qed.

Lemma keeps_store_reporter `{Library} l : keeps_store (reporter l).
Proof. unfold reporter, generate_summary. keeps_store_steps. Qed.

Section Failures.
Context `{Library}.

(** A pass that gets past the inspector and the visualizer hands the
    reporter a table with a column: [describe()] has already accepted
    it. *)
Lemma reporter_table_has_columns ui df l w1 w2 w3 :
  inspector df l w1 = (Ok tt, w2) ->
  visualizer ui l w2 = (Ok tt, w3) ->
  exists d, store w3 !! l = Some d /\ columns d <> [].
Proof.
  intros I V.
  pose proof (keeps_store_visualizer ui l w2) as K. rewrite V in K. simpl in K.
  rewrite K. clear V K w3.
  unfold inspector in I. unfold bind at 1 in I. unfold emit at 1 in I.
  unfold bind at 1 in I.
  destruct (preview df _) as [[[]|e] wa]; [|discriminate].
  unfold bind at 1 in I.
  destruct (preview l wa) as [[[]|e] wb]; [|discriminate].
  unfold bind at 1 in I. unfold load at 1 in I.
  destruct (store wb !! l) as [d|] eqn:E; [|discriminate].
  unfold bind, emit, lift in I. simpl in I.
  destruct (describe d) as [st|e] eqn:D; [|discriminate].
  injection I as <-. simpl. exists d. split; [exact E|].
  unfold describe in D. destruct (columns d); [discriminate|congruence].
Qed.

(** C4, as the code has it.  Nothing catches an exception raised in the
    cleaner or in the visualizer: [main] ends with that exception, in the
    state in which it was raised, and the steps that follow do not run.
    A plotting call that raises makes [plot] raise. *)
Theorem failures_propagate ui df w :
  (forall e w1, cleaner ui df w = (Raise e, w1) -> main ui df w = (Raise e, w1)) /\
  (forall l w1 w2 e w3,
     cleaner ui df w = (Ok l, w1) ->
     inspector df l w1 = (Ok tt, w2) ->
     visualizer ui l w2 = (Raise e, w3) ->
     main ui df w = (Raise e, w3)) /\
  (forall c title e w0, draw c = Some e -> plot c title w0 = (Raise e, w0)).
Proof.
  split; [|split].
  - intros e w1 C. unfold main, bind. rewrite C. reflexivity.
  - intros l w1 w2 e w3 C I V. unfold main, bind. rewrite C, I, V. reflexivity.
  - intros c title e w0 D. unfold plot, lift. rewrite D. reflexivity.
Qed.
End Failures.

Lemma failures_propagate_witness :
  @main sample_library (selection FillMissing [] Histogram) 0 (loaded blank_notes) =
    (Raise (KeyError "0"),
     snd (@cleaner sample_arithmetic (selection FillMissing [] Histogram) 0 (loaded blank_notes))) /\
  @main strict_library (selection DropRows [] BarChart) 0 (loaded gaps) =
    (Raise (LibraryError "IndexError: index 0 is out of bounds for axis 0 with size 0"),
     snd (@main strict_library (selection DropRows [] BarChart) 0 (loaded gaps))) /\
  @plot strict_library (Barplot []) "Average amount by group" (loaded gaps) =
    (Raise (LibraryError "IndexError: index 0 is out of bounds for axis 0 with size 0"),
     loaded gaps).
Proof.
  split; [|split].
  - apply (proj1 (@failures_propagate sample_library
                    (selection FillMissing [] Histogram) 0 (loaded blank_notes))).
    vm_compute. reflexivity.
  - apply (proj1 (proj2 (@failures_propagate strict_library
                           (selection DropRows [] BarChart) 0 (loaded gaps)))
             1
             (snd (@cleaner sample_arithmetic (selection DropRows [] BarChart) 0 (loaded gaps)))
             (snd (@inspector strict_library 0 1
                     (snd (@cleaner sample_arithmetic (selection DropRows [] BarChart) 0 (loaded gaps)))))).
    + vm_compute. reflexivity.
    + vm_compute. reflexivity.
    + vm_compute. reflexivity.
  - apply (proj2 (proj2 (@failures_propagate strict_library
                           (selection DropRows [] BarChart) 0 (loaded gaps)))).
    reflexivity.
Defined.

(** Two passes that end with an exception.  On [blank_notes] the fill
    strategy raises KeyError in the cleaner; on [gaps], once the rows with
    gaps are dropped, the bar chart has no bar and the plotting call raises.
    Either way [main] ends with the exception; the page then holds what was
    shown before it, and neither a message about the failure nor the
    download button. *)
Lemma failure_aborts_render :
  (let run := @main sample_library (selection FillMissing [] Histogram) 0
                (loaded blank_notes) in
   fst run = Raise (KeyError "0") /\
   screen (snd run) = [Header "2. Data Cleaning & Preprocessing";
                       Subheader "Handle Missing Values"]) /\
  (let run := @main strict_library (selection DropRows [] BarChart) 0 (loaded gaps) in
   fst run = Raise (LibraryError "IndexError: index 0 is out of bounds for axis 0 with size 0") /\
   last (screen (snd run)) = Some (Subheader "Bar Chart")).
Proof. split; split; vm_compute; reflexivity. Qed.

(** ** The original table *)

Section Original.
Context `{Library}.

Lemma modifies_only_keeps {A} S (m : M A) : keeps_store m -> modifies_only S m.
Proof. intros K w k x _ E. rewrite K. exact E. Qed.

Lemma modifies_only_bind {A B} S (m : M A) (k : A -> M B) :
  modifies_only S m -> (forall a, modifies_only S (k a)) -> modifies_only S (bind m k).
Proof.
  intros Hm Hk w k0 x N E. unfold bind. specialize (Hm w k0 x N E).
  destruct (m w) as [[a|e] w1]; simpl in *; [|exact Hm].
  apply Hk; assumption.
Qed.

Lemma modifies_only_mutate l f : modifies_only (eq l) (mutate l f).
Proof.
  intros w k x N E. unfold mutate. destruct (store w !! l); simpl; [|exact E].
  rewrite lookup_insert_ne by exact N. exact E.
Qed.

Lemma modifies_only_for_each {A} S (xs : list A) body :
  (forall x, modifies_only S (body x)) -> modifies_only S (for_each xs body).
Proof.
  intros Hb. induction xs as [|x r IH]; simpl.
  - apply modifies_only_keeps, keeps_store_ret.
  - apply modifies_only_bind; [apply Hb|intros _; exact IH].
Qed.

(** A step may do what it likes to the object it has just allocated. *)
Lemma modifies_only_alloc {B} d (k : nat -> M B) :
  (forall l, modifies_only (eq l) (k l)) ->
  modifies_only (fun _ => False) (bind (alloc d) k).
Proof.
  intros Hk w k0 x _ E. unfold bind, alloc.
  apply Hk.
  - apply fresh_not_allocated with x, E.
  - simpl. rewrite lookup_insert_ne; [exact E|].
    apply fresh_not_allocated with x, E.
Qed.

Lemma modifies_only_weaken {A} (S S' : nat -> Prop) (m : M A) :
  (forall k, S k -> S' k) -> modifies_only S m -> modifies_only S' m.
Proof. intros I Hm w k x N E. apply Hm; [intros Sk; apply N, I, Sk|exact E]. Qed.

Lemma modifies_only_display_column l c : modifies_only (eq l) (display_column l c).
Proof.
  unfold display_column.
  apply modifies_only_bind; [apply modifies_only_keeps, keeps_store_load|intros d].
  apply modifies_only_bind; [apply modifies_only_keeps, keeps_store_lift|intros s].
  destruct (is_object s);
    [apply modifies_only_mutate|apply modifies_only_keeps, keeps_store_ret].
Qed.

Lemma modifies_only_to_display_df l : modifies_only (fun _ => False) (to_display_df l).
Proof.
  intros w k x N E. unfold to_display_df. unfold bind at 1. unfold copy.
  unfold bind at 1. unfold load at 1.
  destruct (store w !! l) as [d|]; [|exact E].
  change (store (snd (bind (alloc d)
            (fun display_df =>
               d0 <- load display_df ;;
               for_each (labels d0) (display_column display_df) ;;;
               ret display_df) w)) !! k = Some x).
  apply modifies_only_alloc; [|exact N|exact E].
  intros l1.
  apply modifies_only_bind; [apply modifies_only_keeps, keeps_store_load|intros d0].
  apply modifies_only_bind; [|intros _; apply modifies_only_keeps, keeps_store_ret].
  apply modifies_only_for_each. intros c. apply modifies_only_display_column.
Qed.

Lemma modifies_only_preview l : modifies_only (fun _ => False) (preview l).
Proof.
  intros w k x N E. unfold preview. unfold bind at 1. unfold load at 1.
  destruct (store w !! l) as [d|]; [|exact E].
  apply modifies_only_alloc; [|exact N|exact E].
  intros h.
  apply modifies_only_bind;
    [apply (modifies_only_weaken (fun _ => False)); [tauto|apply modifies_only_to_display_df]|].
  intros display_df.
  apply modifies_only_bind; [apply modifies_only_keeps, keeps_store_load|intros shown].
  apply modifies_only_keeps, keeps_store_emit.
Qed.

Lemma modifies_only_inspector df l : modifies_only (fun _ => False) (inspector df l).
Proof.
  unfold inspector.
  apply modifies_only_bind; [apply modifies_only_keeps, keeps_store_emit|intros _].
  apply modifies_only_bind; [apply modifies_only_preview|intros _].
  apply modifies_only_bind; [apply modifies_only_preview|intros _].
  apply modifies_only_keeps. keeps_store_steps.
Qed.

(** C3.  Whatever the strategy and the drop set, the object behind [df]
    holds after the cleaner what it held before, and the working copy is
    another object whose contents are a function, [working_copy], of the
    contents of [df], the strategy and the drop set; when that function
    fails the cleaner raises the same exception.  The rest of the pass
    does not touch the object either: at the end of [main], however it
    ends, [df] holds what the loader produced. *)
Theorem original_never_mutated ui df w d :
  store w !! df = Some d ->
  (exists r w',
     cleaner ui df w = (r, w') /\
     store w' !! df = Some d /\
     match working_copy (missing_value_strategy ui) (columns_to_drop ui) d with
     | Ok d' => exists l, r = Ok l /\ l <> df /\ store w' !! l = Some d'
     | Raise e => r = Raise e
     end) /\
  store (snd (main ui df w)) !! df = Some d.
Proof.
  intros E. split; [apply cleaner_run, E|].
  destruct (cleaner_run ui df w d E) as (r & w' & R & Keep & _).
  unfold main. unfold bind at 1. rewrite R.
  destruct r as [l|e]; [|exact Keep].
  assert (Rest : modifies_only (fun _ => False)
                   (inspector df l ;;; visualizer ui l ;;; reporter l)).
  { apply modifies_only_bind; [apply modifies_only_inspector|intros _].
    apply modifies_only_keeps.
    apply keeps_store_bind;
      [apply keeps_store_visualizer|intros _; apply keeps_store_reporter]. }
  apply Rest; [tauto|exact Keep].
Qed.

End Original.

Lemma original_never_mutated_witness :
  (exists r w',
     @cleaner sample_arithmetic (selection DropRows ["city"] Histogram) 0 (loaded people) = (r, w') /\
     store w' !! 0 = Some people /\
     match @working_copy sample_arithmetic DropRows ["city"] people with
     | Ok d' => exists l, r = Ok l /\ l <> 0 /\ store w' !! l = Some d'
     | Raise e => r = Raise e
     end) /\
  store (snd (@main sample_library (selection DropRows ["city"] Histogram) 0
                (loaded people))) !! 0 = Some people.
Proof.
  apply (@original_never_mutated sample_library
           (selection DropRows ["city"] Histogram) 0 (loaded people) people).
  reflexivity.
Defined.

(** ** The report in a render pass *)

(** C8.  The report of a working copy that has a column is the text made
    of the header, the shape, the info block, the descriptive statistics
    and the counts of missing values, in that order; for a table of 3 rows
    and 2 columns it contains "Number of Rows: 3" and "Number of
    Columns: 2".  In a render pass the reporter only ever gets such a
    working copy: one that the inspector and the visualizer have let
    through has a column. *)
Theorem summary_report_sections `{Library} :
  (forall w l d,
     store w !! l = Some d ->
     columns d <> [] ->
     exists text,
       generate_summary l w = (Ok text, w) /\
       text = ("Data Analysis Summary Report" ++ nl ++
               "==============================" ++ nl ++ nl ++
               "1. Data Shape" ++ nl ++
               "Number of Rows: " ++ pretty (nrows d) ++ nl ++
               "Number of Columns: " ++ pretty (length (columns d)) ++ nl ++ nl ++
               "2. Data Info" ++ nl ++
               info_text d ++ nl ++ nl ++
               "3. Descriptive Statistics" ++ nl ++
               stats_to_string (Describe d) ++ nl ++ nl ++
               "4. Missing Values Count" ++ nl ++
               counts_to_string (isnull_sum d))%string /\
       (nrows d = 3 -> length (columns d) = 2 ->
        contains text "Number of Rows: 3" /\ contains text "Number of Columns: 2")) /\
  (forall ui df l w1 w2 w3,
     inspector df l w1 = (Ok tt, w2) ->
     visualizer ui l w2 = (Ok tt, w3) ->
     exists d, store w3 !! l = Some d /\ columns d <> []).
Proof.
  split; [|apply reporter_table_has_columns].
  intros w l d E C. eexists. split; [|split].
  - unfold generate_summary, bind, load, lift, ret. rewrite E.
    rewrite (describe_columns d C). reflexivity.
  - cbn [app]. rewrite !concat_cons. cbn [String.concat shape fst snd].
    rewrite !append_assoc. reflexivity.
  - intros R2 C2. cbn [app]. rewrite !concat_cons. cbn [String.concat shape fst snd].
    rewrite !append_assoc, R2, C2. split.
    + eexists ("Data Analysis Summary Report" ++ nl ++
               "==============================" ++ nl ++ nl ++
               "1. Data Shape" ++ nl)%string, _.
      reflexivity.
    + eexists ("Data Analysis Summary Report" ++ nl ++
               "==============================" ++ nl ++ nl ++
               "1. Data Shape" ++ nl ++ "Number of Rows: 3" ++ nl)%string, _.
      reflexivity.
Qed.

Lemma summary_report_sections_witness :
  exists text,
    @generate_summary sample_library 0 (loaded people) = (Ok text, loaded people) /\
    text = ("Data Analysis Summary Report" ++ nl ++
            "==============================" ++ nl ++ nl ++
            "1. Data Shape" ++ nl ++
            "Number of Rows: " ++ pretty (nrows people) ++ nl ++
            "Number of Columns: " ++ pretty (length (columns people)) ++ nl ++ nl ++
            "2. Data Info" ++ nl ++
            "<info>" ++ nl ++ nl ++
            "3. Descriptive Statistics" ++ nl ++
            "<describe>" ++ nl ++ nl ++
            "4. Missing Values Count" ++ nl ++
            "<counts>")%string /\
    (nrows people = 3 -> length (columns people) = 2 ->
     contains text "Number of Rows: 3" /\ contains text "Number of Columns: 2").
Proof.
  apply (proj1 (@summary_report_sections sample_library) (loaded people) 0 people).
  - reflexivity.
  - discriminate.
Defined.

(** A table without columns is refused by [describe()], in the inspector
    and in the report alike. *)
Example describe_without_columns :
  describe (mkDataFrame 3 []) =
    Raise (ValueError "Cannot describe a DataFrame without columns").
Proof. reflexivity. Qed.

(** ** Small checks of the pandas operations *)

Example mean_all_missing `{Arithmetic} : mean (mkSeries Float64 [NA; NA]) = NA.
Proof. reflexivity. Qed.

(** A column of booleans with a gap is read as object; filled, it is a
    bool column. *)
Example fillna_flags :
  fillna_series (Flag false) (mkSeries Object [Flag true; NA; Flag false]) =
  mkSeries Bool [Flag true; Flag false; Flag false].
Proof. reflexivity. Qed.

Example fillna_text :
  fillna_series (Str "open") (mkSeries Object [Str "open"; NA]) =
  mkSeries Object [Str "open"; Str "open"].
Proof. reflexivity. Qed.

Example mode_city : mode [Str "NY"; Str "NY"; Str "LA"] = [Str "NY"].
Proof. vm_compute. reflexivity. Qed.

Example mode_tie :
  mode [Str "b"; NA; Str "a"; Str "b"; Str "a"] = [Str "a"; Str "b"].
Proof. vm_compute. reflexivity. Qed.

Example dropna_gaps : dropna gaps =
  mkDataFrame 0 [("group", mkSeries Object []); ("amount", mkSeries Float64 [])].
Proof. vm_compute. reflexivity. Qed.

(** * Further properties of the code *)

(** ** Dropping the rows with missing values (lines 72-74) *)

Lemma select_rows_all (P : cell -> Prop) rows vs :
  (forall i, In i rows -> exists v, vs !! i = Some v /\ P v) ->
  Forall P (select_rows rows vs) /\ length (select_rows rows vs) = length rows.
Proof.
  unfold select_rows. induction rows as [|i r IH]; intros A; simpl.
  - split; [constructor|reflexivity].
  - destruct (A i) as (v & E & Pv); [left; reflexivity|]. rewrite E. simpl.
    destruct IH as [F L]; [intros j I; apply A; right; exact I|].
    split; [constructor; [exact Pv|exact F]|f_equal; exact L].
Qed.

Lemma select_rows_sublist (f : nat -> bool) (vs : list cell) : forall (pre : list cell) n,
  sublist (omap (fun i => (pre ++ vs) !! i) (List.filter f (seq (length pre) n))) vs.
Proof.
  induction vs as [|v vs IH]; intros pre n.
  - rewrite app_nil_r.
    assert (E : forall rows, (forall i, In i rows -> length pre <= i) ->
                             omap (fun i => pre !! i) rows = []).
    { induction rows as [|i r IHr]; intros A; [reflexivity|]. simpl.
      rewrite (lookup_ge_None_2 pre i) by (apply A; left; reflexivity).
      apply IHr. intros j I. apply A. right. exact I. }
    rewrite E; [constructor|].
    intros i I. apply List.filter_In in I. destruct I as [I _].
    apply in_seq in I. lia.
  - destruct n as [|n]; [apply sublist_nil_l|].
    simpl. specialize (IH (pre ++ [v]) n).
    rewrite <- app_assoc, length_app in IH. simpl in IH.
    rewrite Nat.add_1_r in IH.
    destruct (f (length pre)); simpl.
    + rewrite (list_lookup_middle pre vs v (length pre) eq_refl).
      apply sublist_skip, IH.
    + apply sublist_cons, IH.
Qed.

Lemma select_rows_whole vs : select_rows (seq 0 (length vs)) vs = vs.
Proof.
  unfold select_rows.
  assert (G : forall pre, omap (fun i => (pre ++ vs) !! i) (seq (length pre) (length vs)) = vs).
  { induction vs as [|v r IH]; intros pre; [reflexivity|]. simpl.
    rewrite (list_lookup_middle pre r v (length pre) eq_refl). f_equal.
    specialize (IH (pre ++ [v])). rewrite <- app_assoc, length_app in IH.
    simpl in IH. rewrite Nat.add_1_r in IH. exact IH. }
  apply (G []).
Qed.

Lemma row_has_null_false cs i :
  row_has_null cs i = false ->
  forall c v, In c cs -> s_values (snd c) !! i = Some v -> isnull v = false.
Proof.
  unfold row_has_null. intros E c v I L.
  destruct (isnull v) eqn:N; [|reflexivity].
  assert (X : existsb (fun c => match s_values (snd c) !! i with
                                | Some v => isnull v
                                | None => false
                                end) cs = true).
  { apply existsb_exists. exists c. split; [exact I|]. rewrite L. exact N. }
  congruence.
Qed.

Lemma row_has_null_clean cs i :
  (forall c, In c cs -> any_null (snd c) = false) -> row_has_null cs i = false.
Proof.
  intros A. unfold row_has_null.
  destruct (existsb _ cs) eqn:E; [|reflexivity].
  apply existsb_exists in E. destruct E as (c & I & X).
  destruct (s_values (snd c) !! i) as [v|] eqn:L; [|discriminate].
  specialize (A c I). unfold any_null in A.
  assert (Y : existsb isnull (s_values (snd c)) = true).
  { apply existsb_exists. exists v. split; [|exact X].
    apply list_elem_of_In. eapply list_elem_of_lookup_2, L. }
  congruence.
Qed.

(** X1.  On a table whose columns span the index, dropping the rows with
    missing values leaves a table with no missing entry in any column,
    whose columns again span its index. *)
Theorem drop_rows_leaves_no_missing `{Arithmetic} w l d :
  store w !! l = Some d -> regular d ->
  exists w' d',
    handle_missing_values DropRows l w = (Ok tt, w') /\
    store w' !! l = Some d' /\
    regular d' /\
    Forall (fun c => Forall (fun v => isnull v = false) (s_values (snd c))) (columns d').
Proof.
  intros E R.
  destruct (handle_missing_values_run DropRows l w d E) as (out & Run).
  eexists _, _. split; [exact Run|]. simpl. split; [apply lookup_insert_eq|].
  set (kept := List.filter (fun i => negb (row_has_null (columns d) i)) (seq 0 (nrows d))).
  assert (A : forall c, In c (columns d) ->
            Forall (fun v => isnull v = false) (select_rows kept (s_values (snd c))) /\
            length (select_rows kept (s_values (snd c))) = length kept).
  { intros c I. apply select_rows_all. intros i Ii.
    apply List.filter_In in Ii. destruct Ii as [Ii Hn]. apply in_seq in Ii.
    unfold regular in R. rewrite List.Forall_forall in R. specialize (R c I).
    destruct (lookup_lt_is_Some_2 (s_values (snd c)) i) as [v Lv]; [lia|].
    exists v. split; [exact Lv|].
    eapply (row_has_null_false (columns d) i); [|exact I|exact Lv].
    destruct (row_has_null (columns d) i); [discriminate|reflexivity]. }
  split.
  - unfold regular, dropna. fold kept. simpl. apply List.Forall_forall.
    intros c I. apply in_map_iff in I. destruct I as (c0 & <- & I0). simpl.
    apply A, I0.
  - unfold dropna. fold kept. simpl. apply List.Forall_forall.
    intros c I. apply in_map_iff in I. destruct I as (c0 & <- & I0). simpl.
    apply A, I0.
Qed.

Lemma regular_people : regular people.
Proof. unfold regular. simpl. repeat constructor. Qed.

Lemma drop_rows_leaves_no_missing_witness :
  exists w' d',
    @handle_missing_values sample_arithmetic DropRows 0 (loaded people) = (Ok tt, w') /\
    store w' !! 0 = Some d' /\
    regular d' /\
    Forall (fun c => Forall (fun v => isnull v = false) (s_values (snd c))) (columns d').
Proof.
  apply (@drop_rows_leaves_no_missing sample_arithmetic (loaded people) 0 people).
  - reflexivity.
  - exact regular_people.
Defined.

Lemma select_rows_columns (f : nat -> bool) n (cs : list (string * Series)) :
  Forall2 (fun old new => sublist (s_values (snd new)) (s_values (snd old)))
    cs
    (map (fun c => (fst c, mkSeries (s_dtype (snd c))
                             (select_rows (List.filter f (seq 0 n)) (s_values (snd c)))))
         cs).
Proof.
  induction cs as [|c r IH]; simpl; constructor; [|exact IH].
  simpl. unfold select_rows. apply (select_rows_sublist f _ []).
Qed.

(** X2.  Dropping rows only removes rows: the labels and dtypes of the
    columns stay, the index does not grow, and each column keeps a
    subsequence of its entries, in their order. *)
Theorem drop_rows_only_removes_rows `{Arithmetic} w l d :
  store w !! l = Some d ->
  exists w' d',
    handle_missing_values DropRows l w = (Ok tt, w') /\
    store w' !! l = Some d' /\
    nrows d' <= nrows d /\
    dtypes d' = dtypes d /\
    Forall2 (fun old new => sublist (s_values (snd new)) (s_values (snd old)))
            (columns d) (columns d').
Proof.
  intros E.
  destruct (handle_missing_values_run DropRows l w d E) as (out & Run).
  eexists _, _. split; [exact Run|]. simpl. split; [apply lookup_insert_eq|].
  split; [|split].
  - etransitivity; [apply List.filter_length_le|]. rewrite List.length_seq. lia.
  - unfold dtypes. simpl. rewrite map_map. reflexivity.
  - apply (select_rows_columns (fun i => negb (row_has_null (columns d) i))
             (nrows d) (columns d)).
Qed.

Lemma drop_rows_only_removes_rows_witness :
  exists w' d',
    @handle_missing_values sample_arithmetic DropRows 0 (loaded people) = (Ok tt, w') /\
    store w' !! 0 = Some d' /\
    nrows d' <= nrows people /\
    dtypes d' = dtypes people /\
    Forall2 (fun old new => sublist (s_values (snd new)) (s_values (snd old)))
            (columns people) (columns d').
Proof.
  apply (@drop_rows_only_removes_rows sample_arithmetic (loaded people) 0 people). reflexivity.
Defined.

(** ** A table without missing values *)

Lemma filter_all {A} (f : A -> bool) l :
  (forall x, In x l -> f x = true) -> List.filter f l = l.
Proof.
  induction l as [|a r IH]; simpl; [reflexivity|]. intros F.
  rewrite (F a) by (left; reflexivity). f_equal. apply IH.
  intros x I. apply F. right. exact I.
Qed.

Lemma dropna_complete d :
  regular d -> (forall c, In c (columns d) -> any_null (snd c) = false) -> dropna d = d.
Proof.
  intros R A. unfold dropna.
  rewrite filter_all by (intros i _; rewrite row_has_null_clean by exact A; reflexivity).
  rewrite List.length_seq.
  replace (map _ (columns d)) with (columns d); [destruct d; reflexivity|].
  unfold regular in R. rewrite List.Forall_forall in R.
  rewrite <- (map_id (columns d)) at 1. apply map_ext_in. intros [n s] I.
  specialize (R _ I). simpl in *. rewrite <- R, select_rows_whole.
  destruct s; reflexivity.
Qed.

Lemma lookup_column_label c cs :
  In c (map fst cs) -> exists s, lookup_column c cs = Some s /\ In (c, s) cs.
Proof.
  induction cs as [|[n x] r IH]; simpl; [tauto|].
  destruct (String.eqb n c) eqn:E.
  - apply String.eqb_eq in E. subst n. eauto.
  - intros [Eq|I]; [subst; rewrite String.eqb_refl in E; discriminate|].
    destruct (IH I) as (s & L & Is). eauto.
Qed.

Lemma fill_columns_on_complete `{Arithmetic} d cols :
  (forall c, In c (columns d) -> any_null (snd c) = false) ->
  (forall c, In c cols -> In c (labels d)) ->
  fill_columns_on cols d = (Ok tt, d).
Proof.
  intros A. induction cols as [|c r IH]; intros K; [reflexivity|]. simpl.
  destruct (lookup_column_label c (columns d)) as (s & L & I);
    [apply K; left; reflexivity|].
  pose proof (A _ I) as An. simpl in An.
  unfold fill_column_on, getitem. rewrite L, An.
  apply IH. intros x Ix. apply K. right. exact Ix.
Qed.

(** X3.  On a table that has no missing value (and whose columns span the
    index) each of the three strategies leaves the data of the working
    copy as it is. *)
Theorem strategies_keep_complete_table `{Arithmetic} st w l d :
  store w !! l = Some d -> regular d ->
  (forall c, In c (columns d) -> any_null (snd c) = false) ->
  exists out,
    handle_missing_values st l w = (Ok tt, mkWorld (store w) (screen w ++ out)).
Proof.
  intros E R A.
  destruct (handle_missing_values_run st l w d E) as (out & Run).
  exists out. rewrite Run.
  assert (X : handle_missing_values_on st d = (Ok tt, d)).
  { destruct st; simpl.
    - reflexivity.
    - rewrite dropna_complete by assumption. reflexivity.
    - apply fill_columns_on_complete; [exact A|tauto]. }
  rewrite X. simpl. rewrite insert_id by exact E. reflexivity.
Qed.

Lemma strategies_keep_complete_table_witness :
  exists out,
    @handle_missing_values sample_arithmetic DropRows 0 (loaded sales) =
      (Ok tt, mkWorld (store (loaded sales)) (screen (loaded sales) ++ out)).
Proof.
  apply (@strategies_keep_complete_table sample_arithmetic DropRows (loaded sales) 0 sales).
  - reflexivity.
  - unfold regular. simpl. repeat constructor.
  - intros c [<-|[<-|[]]]; reflexivity.
Defined.

(** ** What the fill strategy leaves missing *)

Lemma fillna_notnull v vs : isnull v = false -> existsb isnull (fillna v vs) = false.
Proof.
  intros N. unfold fillna. induction vs as [|a r IH]; [reflexivity|]. simpl.
  rewrite IH. destruct (isnull a) eqn:Ea; [rewrite N|rewrite Ea]; reflexivity.
Qed.

Lemma numeric_not_object s : is_numeric_dtype s = true -> is_object s = false.
Proof.
  unfold is_numeric_dtype, is_object. destruct (s_dtype s); congruence.
Qed.

(** X4.  On a table as the loader gives it, the fill strategy completes,
    and afterwards a column has a missing entry exactly when it is a
    numeric column that had one and whose mean is NaN (it holds no number,
    or the float64 mean of its numbers is NaN); such a column comes out as
    it went in.  Every other column comes out complete. *)
Theorem fill_missing_fills_what_it_can `{Arithmetic} w l d :
  store w !! l = Some d -> tidy d ->
  exists w' d',
    handle_missing_values FillMissing l w = (Ok tt, w') /\
    store w' !! l = Some d' /\
    Forall2 (fun old new =>
               fst new = fst old /\
               (any_null (snd new) = true <->
                any_null (snd old) = true /\ is_numeric_dtype (snd old) = true /\
                mean (snd old) = NA) /\
               (any_null (snd new) = true -> snd new = snd old))
            (columns d) (columns d').
Proof.
  intros E T.
  destruct (fill_missing_run w l d E T) as (cs' & R & F).
  eexists _, _. split; [exact R|]. simpl. split; [apply lookup_insert_eq|].
  eapply Forall2_impl_In; [exact F|].
  intros [c s] [c' s'] I [Ec Es]. simpl in *. split; [exact Ec|].
  unfold fill_series in Es.
  destruct (any_null s) eqn:A.
  - destruct (is_numeric_dtype s) eqn:Nu.
    + injection Es as <-. unfold fillna_series.
      rewrite (numeric_not_object s Nu).
      destruct (isnull (mean s)) eqn:Mn.
      * assert (M : mean s = NA) by (destruct (mean s); try discriminate; reflexivity).
        rewrite M, fillna_NA.
        replace (mkSeries (s_dtype s) (s_values s)) with s by (destruct s; reflexivity).
        rewrite A. tauto.
      * assert (X : any_null (mkSeries (s_dtype s) (fillna (mean s) (s_values s))) = false)
          by (apply fillna_notnull, Mn).
        rewrite X. split; [|discriminate]. split; [discriminate|].
        intros (_ & _ & M). rewrite M in Mn. discriminate.
    + destruct (mode0_spec (s_values s)) as (m & Em & Sm & _).
      * eapply tidy_inferred; eauto.
      * rewrite Em in Es. injection Es as <-.
        assert (X : any_null (fillna_series m s) = false)
          by (apply fillna_notnull, Sm).
        rewrite X. split; [|discriminate]. split; [discriminate|].
        intros (_ & ? & _). discriminate.
  - injection Es as <-. rewrite A. split; [|discriminate].
    split; [discriminate|]. intros (? & _). discriminate.
Qed.

Lemma fill_missing_fills_what_it_can_witness :
  exists w' d',
    @handle_missing_values sample_arithmetic FillMissing 0 (loaded unscored) = (Ok tt, w') /\
    store w' !! 0 = Some d' /\
    Forall2 (fun old new =>
               fst new = fst old /\
               (any_null (snd new) = true <->
                any_null (snd old) = true /\ is_numeric_dtype (snd old) = true /\
                @mean sample_arithmetic (snd old) = NA) /\
               (any_null (snd new) = true -> snd new = snd old))
            (columns unscored) (columns d').
Proof.
  apply (@fill_missing_fills_what_it_can sample_arithmetic (loaded unscored) 0 unscored).
  - reflexivity.
  - exact tidy_unscored.
Defined.

Lemma lookup_assign_column c s s' cs :
  lookup_column c cs = Some s -> lookup_column c (assign_column c s' cs) = Some s'.
Proof.
  induction cs as [|[n x] r IH]; simpl; [discriminate|].
  destruct (String.eqb n c) eqn:E; simpl; rewrite E; [reflexivity|exact IH].
Qed.

(** ** Labels and dtypes across the cleaner *)

Lemma Forall_assign_column (P : string * Series -> Prop) c s' cs :
  Forall P cs -> P (c, s') -> (forall n x, P (c, x) -> n = c -> P (n, x)) ->
  Forall P (assign_column c s' cs).
Proof.
  intros F Pc _. induction F as [|[n x] r Pn Fr IH]; simpl.
  - constructor; [exact Pc|constructor].
  - destruct (String.eqb n c) eqn:E.
    + apply String.eqb_eq in E. subst n. constructor; assumption.
    + constructor; assumption.
Qed.

Lemma column_kept_refl cs : Forall2 column_kept cs cs.
Proof. induction cs; constructor; [split; auto|assumption]. Qed.

Lemma column_kept_trans cs1 cs2 : Forall2 column_kept cs1 cs2 ->
  forall cs3, Forall2 column_kept cs2 cs3 -> Forall2 column_kept cs1 cs3.
Proof.
  induction 1 as [|a b l l' [E1 D1] F IH]; intros cs3 F3;
    inversion F3 as [|b' c' l2 l3 [E2 D2] F3']; subst; constructor; [|auto].
  split; [congruence|].
  destruct D1 as [D1|O1]; [|auto].
  destruct D2 as [D2|O2]; [left; congruence|].
  right. unfold is_object in *. rewrite <- D1. exact O2.
Qed.

Lemma column_kept_assign c s s' cs :
  lookup_column c cs = Some s ->
  s_dtype s' = s_dtype s \/ is_object s = true ->
  Forall2 column_kept cs (assign_column c s' cs).
Proof.
  intros L D. induction cs as [|[n x] r IH]; simpl in *; [discriminate|].
  destruct (String.eqb n c).
  - injection L as ->. constructor; [split; auto|apply column_kept_refl].
  - constructor; [split; auto|apply IH, L].
Qed.

Lemma column_kept_labels cs cs' : Forall2 column_kept cs cs' -> map fst cs' = map fst cs.
Proof. induction 1 as [|a b l l' [E _] F IH]; simpl; congruence. Qed.

Lemma fillna_series_dtype v s :
  s_dtype (fillna_series v s) = s_dtype s \/ is_object s = true.
Proof. unfold fillna_series. simpl. destruct (is_object s); auto. Qed.

Lemma fill_column_on_shape `{Arithmetic} d c :
  Forall2 column_kept (columns d) (columns (snd (fill_column_on d c))) /\
  nrows (snd (fill_column_on d c)) = nrows d /\
  (regular d -> regular (snd (fill_column_on d c))).
Proof.
  unfold fill_column_on, getitem.
  destruct (lookup_column c (columns d)) as [s|] eqn:L;
    [|split; [apply column_kept_refl|auto]].
  assert (Is : exists n, In (n, s) (columns d)).
  { clear -L. induction (columns d) as [|[n x] r IH]; simpl in L; [discriminate|].
    destruct (String.eqb n c); [injection L as ->; exists n; left; reflexivity|].
    destruct (IH L) as [m I]. exists m. right. exact I. }
  assert (X : forall v,
            Forall2 column_kept (columns d) (columns (setitem c (fillna_series v s) d)) /\
            nrows (setitem c (fillna_series v s) d) = nrows d /\
            (regular d -> regular (setitem c (fillna_series v s) d))).
  { intros v. split; [|split; [reflexivity|]].
    - unfold setitem. simpl.
      apply (column_kept_assign c s); [exact L|apply fillna_series_dtype].
    - unfold regular, setitem. simpl. intros R.
      apply Forall_assign_column; [exact R| |auto].
      simpl. unfold fillna. rewrite length_map.
      destruct Is as [n I]. rewrite List.Forall_forall in R. apply (R _ I). }
  destruct (any_null s); [|split; [apply column_kept_refl|auto]].
  destruct (is_numeric_dtype s); [apply X|].
  destruct (mode0 (s_values s)); [apply X|split; [apply column_kept_refl|auto]].
Qed.

Lemma fill_columns_on_shape `{Arithmetic} cols : forall d,
  Forall2 column_kept (columns d) (columns (snd (fill_columns_on cols d))) /\
  nrows (snd (fill_columns_on cols d)) = nrows d /\
  (regular d -> regular (snd (fill_columns_on cols d))).
Proof.
  induction cols as [|c r IH]; intros d; simpl;
    [split; [apply column_kept_refl|auto]|].
  destruct (fill_column_on_shape d c) as (D & N & R).
  destruct (fill_column_on d c) as [[[]|e] d1]; simpl in *; [|auto].
  destruct (IH d1) as (D1 & N1 & R1).
  split; [eapply column_kept_trans; eassumption|]. split; [congruence|]. auto.
Qed.

Lemma dropna_regular d : regular d -> regular (dropna d).
Proof.
  intros R. unfold regular, dropna. simpl. apply List.Forall_forall.
  intros c I. apply in_map_iff in I. destruct I as (c0 & <- & I0). simpl.
  apply select_rows_all with (P := fun _ => True).
  intros i Ii. apply List.filter_In in Ii. destruct Ii as [Ii _]. apply in_seq in Ii.
  unfold regular in R. rewrite List.Forall_forall in R. specialize (R c0 I0).
  destruct (lookup_lt_is_Some_2 (s_values (snd c0)) i) as [v Lv]; [lia|]. eauto.
Qed.

Lemma dtypes_column_kept d d' :
  dtypes d' = dtypes d -> Forall2 column_kept (columns d) (columns d').
Proof.
  unfold dtypes. generalize (columns d'). induction (columns d) as [|a r IH];
    intros [|b r']; simpl; try discriminate; [constructor|].
  intros [= E D R]. constructor; [split; auto|apply IH, R].
Qed.

(** The missing-value step keeps the labels; it keeps the dtypes too,
    those apart that [fillna] infers anew for object columns. *)
Lemma handle_missing_values_on_shape `{Arithmetic} st d :
  Forall2 column_kept (columns d) (columns (snd (handle_missing_values_on st d))) /\
  (st <> FillMissing -> dtypes (snd (handle_missing_values_on st d)) = dtypes d) /\
  nrows (snd (handle_missing_values_on st d)) <= nrows d /\
  (regular d -> regular (snd (handle_missing_values_on st d))).
Proof.
  destruct st; simpl.
  - split; [apply column_kept_refl|auto].
  - assert (D : dtypes (dropna d) = dtypes d)
      by (unfold dtypes; simpl; rewrite map_map; reflexivity).
    split; [exact (dtypes_column_kept d (dropna d) D)|]. split; [intros _; exact D|].
    split; [|apply dropna_regular].
    etransitivity; [apply List.filter_length_le|]. rewrite List.length_seq. lia.
  - destruct (fill_columns_on_shape (labels d) d) as (D & N & R).
    split; [exact D|]. split; [congruence|]. split; [lia|exact R].
Qed.

Lemma handle_missing_values_on_labels `{Arithmetic} st d :
  labels (snd (handle_missing_values_on st d)) = labels d.
Proof.
  destruct (handle_missing_values_on_shape st d) as (K & _).
  apply column_kept_labels, K.
Qed.

Lemma select_dtypes_by_dtype (f : Series -> bool) d d' :
  (forall s s', s_dtype s = s_dtype s' -> f s = f s') ->
  dtypes d' = dtypes d -> select_dtypes f d' = select_dtypes f d.
Proof.
  intros Hf. unfold dtypes, select_dtypes.
  generalize (columns d). generalize (columns d'). clear d d'.
  induction l as [|[n s] r IH]; intros [|[n' s'] r']; simpl; try discriminate; [reflexivity|].
  intros [= -> D R]. rewrite (Hf s s' D). specialize (IH r' R).
  destruct (f s'); simpl; congruence.
Qed.

(** Columns that pass a test and still pass another afterwards. *)
Lemma select_dtypes_sublist (f g : Series -> bool) (cs cs' : list (string * Series)) :
  Forall2 (fun old new => fst new = fst old /\ (f (snd old) = true -> g (snd new) = true))
          cs cs' ->
  sublist (map fst (List.filter (fun c => f (snd c)) cs))
          (map fst (List.filter (fun c => g (snd c)) cs')).
Proof.
  induction 1 as [|a b l l' [E I] F IH]; simpl; [constructor|].
  destruct (f (snd a)) eqn:Fa.
  - rewrite (I eq_refl). simpl. rewrite E. apply sublist_skip, IH.
  - destruct (g (snd b)); simpl; [apply sublist_cons, IH|exact IH].
Qed.

(** X7.  Whatever the strategy, and also when the fill raises, the
    working copy has after the missing-value step the labels it had
    before, in the same order, and every column that was not of dtype
    object has the dtype it had.  With no strategy and with the rows
    dropped all dtypes are kept, so the numeric and the categorical
    columns the visualizer offers are those of the table before the step;
    under the fill strategy every numeric column is still offered as
    numeric, and no column becomes categorical. *)
Theorem strategies_keep_dtypes `{Arithmetic} st w l d :
  store w !! l = Some d ->
  exists r w' d',
    handle_missing_values st l w = (r, w') /\
    store w' !! l = Some d' /\
    labels d' = labels d /\
    Forall2 column_kept (columns d) (columns d') /\
    (st <> FillMissing ->
     dtypes d' = dtypes d /\
     select_dtypes is_number d' = select_dtypes is_number d /\
     select_dtypes is_object_or_category d' = select_dtypes is_object_or_category d) /\
    sublist (select_dtypes is_number d) (select_dtypes is_number d') /\
    sublist (select_dtypes is_object_or_category d')
            (select_dtypes is_object_or_category d).
Proof.
  intros E.
  destruct (handle_missing_values_run st l w d E) as (out & Run).
  destruct (handle_missing_values_on_shape st d) as (K & D & _ & _).
  eexists _, _, _. split; [exact Run|]. simpl. split; [apply lookup_insert_eq|].
  split; [apply column_kept_labels, K|]. split; [exact K|].
  split; [|split].
  - intros N. specialize (D N). split; [exact D|].
    split; apply select_dtypes_by_dtype; try exact D;
      intros s s' Es; unfold is_number, is_object_or_category; rewrite Es; reflexivity.
  - unfold select_dtypes. apply select_dtypes_sublist.
    eapply Forall2_impl; [exact K|].
    intros a b [Eq Dq]. split; [exact Eq|].
    unfold is_number, is_object in *. intros Na.
    destruct Dq as [Dq|Dq]; [rewrite Dq; exact Na|].
    destruct (s_dtype (snd a)); discriminate.
  - unfold select_dtypes. apply select_dtypes_sublist.
    apply Forall2_flip.
    eapply Forall2_impl; [exact K|].
    intros a b [Eq Dq]. split; [symmetry; exact Eq|].
    unfold is_object_or_category, is_object in *. intros Nb.
    destruct Dq as [Dq|Dq]; [rewrite <- Dq; exact Nb|].
    destruct (s_dtype (snd a)); try discriminate; reflexivity.
Qed.

Lemma strategies_keep_dtypes_witness :
  exists r w' d',
    @handle_missing_values sample_arithmetic FillMissing 0 (loaded people) = (r, w') /\
    store w' !! 0 = Some d' /\
    labels d' = labels people /\
    Forall2 column_kept (columns people) (columns d') /\
    (FillMissing <> FillMissing ->
     dtypes d' = dtypes people /\
     select_dtypes is_number d' = select_dtypes is_number people /\
     select_dtypes is_object_or_category d' = select_dtypes is_object_or_category people) /\
    sublist (select_dtypes is_number people) (select_dtypes is_number d') /\
    sublist (select_dtypes is_object_or_category d')
            (select_dtypes is_object_or_category people).
Proof.
  apply (@strategies_keep_dtypes sample_arithmetic FillMissing (loaded people) 0 people).
  reflexivity.
Defined.

(** ** The visualizer's lists after a drop *)

Lemma filter_map_fst (f : Series -> bool) (g : string -> bool) (cs : list (string * Series)) :
  map fst (List.filter (fun c => f (snd c)) (List.filter (fun c => g (fst c)) cs)) =
  List.filter g (map fst (List.filter (fun c => f (snd c)) cs)).
Proof.
  induction cs as [|[n s] r IH]; simpl; [reflexivity|].
  destruct (g n) eqn:G, (f s) eqn:Fs; simpl; rewrite ?G, ?Fs; simpl; rewrite ?G;
    try (f_equal; exact IH); exact IH.
Qed.

(** X8.  After a drop that succeeds, each list of columns the visualizer
    computes (numeric, categorical) is the list it would have computed
    before the drop with the dropped labels taken out, the rest in the
    same order. *)
Theorem classification_after_drop w l d cols l' w' :
  store w !! l = Some d ->
  drop_columns cols l w = (Ok l', w') ->
  exists d',
    store w' !! l' = Some d' /\
    forall include,
      select_dtypes include d' =
      List.filter (fun c => negb (mem c cols)) (select_dtypes include d).
Proof.
  intros E Run.
  pose proof (drop_columns_run cols l w d E) as R.
  destruct cols as [|c0 r].
  - cbn [drop_columns_on] in R. destruct R as (l1 & w1 & R1 & S1 & _).
    rewrite Run in R1. injection R1 as <- <-.
    exists d. split; [exact S1|]. intros include.
    rewrite filter_all; [reflexivity|]. intros; reflexivity.
  - unfold drop_columns_on, drop in R.
    destruct (List.find _ (c0 :: r)) as [c|].
    + rewrite Run in R. discriminate.
    + destruct R as (l1 & w1 & R1 & S1 & _).
      rewrite Run in R1. injection R1 as <- <-.
      eexists. split; [exact S1|]. intros include.
      unfold select_dtypes. cbn [columns].
      apply (filter_map_fst include (fun n => negb (mem n (c0 :: r)))).
Qed.

Lemma classification_after_drop_witness :
  exists d',
    store (snd (drop_columns ["age"] 0 (loaded people))) !! 1 = Some d' /\
    forall include,
      select_dtypes include d' =
      List.filter (fun c => negb (mem c ["age"])) (select_dtypes include people).
Proof.
  apply (classification_after_drop (loaded people) 0 people ["age"] 1
           (snd (drop_columns ["age"] 0 (loaded people)))).
  - reflexivity.
  - vm_compute. reflexivity.
Defined.

(** ** The working copy is a well-formed table *)

Lemma working_copy_shape `{Arithmetic} st cols d d' :
  working_copy st cols d = Ok d' ->
  sublist (labels d') (labels d) /\
  (st <> FillMissing -> sublist (dtypes d') (dtypes d)) /\
  nrows d' <= nrows d /\
  (regular d -> regular d').
Proof.
  unfold working_copy.
  destruct (handle_missing_values_on_shape st d) as (K & D & N & R).
  pose proof (handle_missing_values_on_labels st d) as La.
  destruct (handle_missing_values_on st d) as [[[]|e] d1]; [|discriminate].
  simpl in *. rewrite <- La.
  destruct cols as [|c r].
  - intros [= <-]. split; [reflexivity|]. split; [|auto].
    intros X. rewrite (D X). reflexivity.
  - unfold drop_columns_on, drop.
    destruct (List.find _ (c :: r)); [discriminate|]. intros [= <-].
    unfold labels, dtypes, regular. simpl. split; [|split; [|split; [exact N|]]].
    + apply (fmap_sublist fst), filter_sublist.
    + intros X. specialize (D X). unfold dtypes in D. rewrite <- D.
      apply (fmap_sublist (fun c => (fst c, s_dtype (snd c)))), filter_sublist.
    + intros Rd. specialize (R Rd). unfold regular in R.
      rewrite List.Forall_forall in *. intros x I.
      apply List.filter_In in I. apply R, I.
Qed.

(** X9.  When the cleaner succeeds, the working copy has a subsequence of
    the labels of the original, and at most as many rows; its labels are
    distinct, and its columns span its index, when that holds of the
    original.  Unless the gaps were filled, its columns also have the
    dtypes they had in the original. *)
Theorem working_copy_well_formed `{Arithmetic} ui df w d l w' :
  store w !! df = Some d ->
  cleaner ui df w = (Ok l, w') ->
  exists d',
    store w' !! l = Some d' /\
    sublist (labels d') (labels d) /\
    (missing_value_strategy ui <> FillMissing -> sublist (dtypes d') (dtypes d)) /\
    nrows d' <= nrows d /\
    (regular d -> regular d') /\
    (NoDup (labels d) -> NoDup (labels d')).
Proof.
  intros E Run.
  destruct (cleaner_run ui df w d E) as (r & w1 & R & _ & W).
  rewrite Run in R. injection R as <- <-.
  destruct (working_copy _ _ d) as [d'|e] eqn:WC; [|discriminate].
  destruct W as (l0 & [= <-] & _ & Sl).
  destruct (working_copy_shape _ _ _ _ WC) as (Sub & Dt & N & Rg).
  exists d'. split; [exact Sl|]. split; [exact Sub|]. split; [exact Dt|].
  split; [exact N|]. split; [exact Rg|].
  intros ND. eapply sublist_NoDup; [exact ND|exact Sub].
Qed.

Lemma working_copy_well_formed_witness :
  exists d',
    store (snd (@cleaner sample_arithmetic (selection DropRows ["city"] Histogram) 0
                  (loaded people))) !! 2
      = Some d' /\
    sublist (labels d') (labels people) /\
    (DropRows <> FillMissing -> sublist (dtypes d') (dtypes people)) /\
    nrows d' <= nrows people /\
    (regular people -> regular d') /\
    (NoDup (labels people) -> NoDup (labels d')).
Proof.
  apply (@working_copy_well_formed sample_arithmetic
           (selection DropRows ["city"] Histogram) 0
           (loaded people) people 2
           (snd (@cleaner sample_arithmetic (selection DropRows ["city"] Histogram) 0
                   (loaded people)))).
  - reflexivity.
  - vm_compute. reflexivity.
Defined.

(** ** Dropping every column *)

Section WithoutColumns.
Context `{Library}.

Lemma preview_ok l w d :
  store w !! l = Some d -> NoDup (labels d) ->
  exists w', preview l w = (Ok tt, w') /\
             forall k x, store w !! k = Some x -> store w' !! k = Some x.
Proof.
  intros E ND.
  destruct (preview_run l w d E ND) as (l1 & l2 & _ & _ & F1 & F2 & R).
  eexists. split; [exact R|]. simpl. intros k x Ek.
  rewrite !lookup_insert_ne by congruence. exact Ek.
Qed.

Lemma inspector_without_columns df l w d d0 :
  store w !! df = Some d -> NoDup (labels d) ->
  store w !! l = Some d0 -> columns d0 = [] ->
  exists w',
    inspector df l w =
      (Raise (ValueError "Cannot describe a DataFrame without columns"), w').
Proof.
  intros E ND E0 C0.
  unfold inspector. unfold bind at 1. unfold emit at 1.
  set (w1 := mkWorld (store w) (screen w ++ [Header "Data Exploration"])).
  destruct (preview_ok df w1 d E ND) as (w2 & P2 & K2).
  unfold bind at 1. rewrite P2.
  assert (E2 : store w2 !! l = Some d0) by (apply K2; exact E0).
  destruct (preview_ok l w2 d0 E2) as (w3 & P3 & K3).
  { unfold labels. rewrite C0. constructor. }
  unfold bind at 1. rewrite P3.
  unfold bind at 1. unfold load at 1. rewrite (K3 _ _ E2).
  unfold bind, emit, lift, describe. simpl. rewrite C0. eexists. reflexivity.
Qed.

(** X10.  Selecting every column in the drop box ends the render pass with
    ValueError: the cleaner produces a working copy without columns, and
    the inspector's [describe()] refuses it.  This holds under the
    strategies "none" and "drop rows", and under the fill strategy for a
    table as the loader gives it. *)
Theorem dropping_every_column_aborts ui df w d :
  store w !! df = Some d ->
  NoDup (labels d) ->
  columns d <> [] ->
  (missing_value_strategy ui = FillMissing -> tidy d) ->
  (forall c, In c (columns_to_drop ui) <-> In c (labels d)) ->
  exists w',
    main ui df w =
      (Raise (ValueError "Cannot describe a DataFrame without columns"), w').
Proof.
  intros E ND NE T All.
  assert (WC : exists d0, working_copy (missing_value_strategy ui) (columns_to_drop ui) d
                          = Ok d0 /\ columns d0 = []).
  { unfold working_copy.
    pose proof (handle_missing_values_on_labels (missing_value_strategy ui) d) as L1.
    assert (OkH : fst (handle_missing_values_on (missing_value_strategy ui) d) = Ok tt).
    { destruct (missing_value_strategy ui); simpl; try reflexivity.
      specialize (T eq_refl).
      destruct (fill_columns_on_distinct (nrows d) (columns d) []) as (cs' & R & _).
      - simpl. exact ND.
      - intros c s I. eapply fill_series_tidy; eauto.
      - clear L1. simpl in R. unfold labels. destruct d as [n cs]. simpl in *. rewrite R.
        reflexivity. }
    destruct (handle_missing_values_on (missing_value_strategy ui) d) as [r d1].
    simpl in *. subst r.
    destruct (columns_to_drop ui) as [|c0 r] eqn:Cols.
    - exfalso. destruct (columns d) as [|[n s] cs] eqn:C; [congruence|].
      apply (All n). unfold labels. rewrite C. left. reflexivity.
    - unfold drop_columns_on. rewrite drop_known.
      + eexists. split; [reflexivity|]. simpl. apply filter_none.
        intros x I.
        assert (M : mem (fst x) (c0 :: r) = true).
        { apply mem_In, All. rewrite <- L1. unfold labels. apply in_map, I. }
        change (negb (mem (fst x) (c0 :: r)) = false). rewrite M. reflexivity.
      + intros c I. rewrite L1. apply All, I. }
  destruct WC as (d0 & WC & C0).
  destruct (cleaner_run ui df w d E) as (r & w1 & R & Keep & W).
  rewrite WC in W. destruct W as (l & -> & _ & Sl).
  destruct (inspector_without_columns df l w1 d d0 Keep ND Sl C0) as (w2 & I2).
  exists w2. unfold main. unfold bind at 1. rewrite R.
  unfold bind at 1. rewrite I2. reflexivity.
Qed.

End WithoutColumns.

Lemma dropping_every_column_aborts_witness :
  exists w',
    @main sample_library (selection NoStrategy ["city"; "age"] Histogram) 0 (loaded people) =
      (Raise (ValueError "Cannot describe a DataFrame without columns"), w').
Proof.
  apply (@dropping_every_column_aborts sample_library
           (selection NoStrategy ["city"; "age"] Histogram) 0 (loaded people) people).
  - reflexivity.
  - apply tidy_people.
  - discriminate.
  - discriminate.
  - intros c. unfold labels. simpl. tauto.
Defined.

(** ** The visualizer on other selections *)

Section Plots.
Context `{Library}.

(** X11.  With no int64 or float64 column in the working copy, whatever
    plot kind and options are selected, the visualizer returns normally
    and draws no figure. *)
Theorem no_numeric_column_no_figure ui w l d :
  store w !! l = Some d ->
  (forall c, In c (columns d) -> is_number (snd c) = false) ->
  exists out,
    visualizer ui l w = (Ok tt, mkWorld (store w) (screen w ++ out)) /\
    forall c title, ~ In (Pyplot c title) out.
Proof.
  intros E N.
  assert (S0 : select_dtypes is_number d = []).
  { unfold select_dtypes. rewrite filter_none; [reflexivity|exact N]. }
  unfold visualizer. unfold bind at 1. unfold emit at 1.
  unfold bind at 1. unfold load at 1. simpl store. rewrite E. rewrite S0.
  destruct (plot_type ui); unfold bind, emit, ret; simpl.
  - eexists. rewrite <- app_assoc. split; [reflexivity|].
    simpl. intros c t [X|[X|[]]]; discriminate.
  - eexists. rewrite <- app_assoc. split; [reflexivity|].
    simpl. intros c t [X|[X|[]]]; discriminate.
  - eexists. rewrite <- app_assoc. split; [reflexivity|].
    simpl. intros c t [X|[X|[]]]; discriminate.
  - destruct (chosen (selectbox (select_dtypes is_object_or_category d) (cat_choice ui)));
      eexists; rewrite <- app_assoc; (split; [reflexivity|]);
      simpl; intros c t [X|[X|[]]]; discriminate.
  - eexists. rewrite <- !app_assoc. split; [reflexivity|].
    simpl. intros c t [X|[X|[X|[]]]]; discriminate.
Qed.

(** X12.  The scatter branch either draws nothing or draws one scatter
    plot of two numeric columns under different labels: the options of
    the Y box leave out what the X box holds. *)
Theorem scatter_axes_differ ui w l d :
  store w !! l = Some d ->
  plot_type ui = ScatterPlot ->
  exists r out,
    visualizer ui l w =
      (r, mkWorld (store w)
            (screen w ++ [Header "Data Visualization"; Subheader "Scatter Plot"] ++ out)) /\
    (out = [] \/
     exists x y sx sy hue_data,
       x <> y /\
       In x (select_dtypes is_number d) /\ In y (select_dtypes is_number d) /\
       getitem d x = Ok sx /\ getitem d y = Ok sy /\
       r = Ok tt /\
       out = [Pyplot (Scatterplot sx sy hue_data)
                     ("Scatter Plot of " ++ x ++ " vs " ++ y)%string]).
Proof.
  intros E P.
  unfold visualizer. unfold bind at 1. unfold emit at 1.
  unfold bind at 1. unfold load at 1. simpl store. rewrite E, P.
  unfold bind at 1. unfold emit at 1. simpl.
  set (numeric := select_dtypes is_number d).
  set (x_axis := selectbox numeric (x_choice ui)).
  set (y_options := List.filter (fun col => negb (bool_decide (Some col = x_axis))) numeric).
  destruct (chosen x_axis) as [x|] eqn:Cx;
    [|eexists _, []; rewrite <- app_assoc; split; [reflexivity|left; reflexivity]].
  destruct (chosen (selectbox y_options (y_choice ui))) as [y|] eqn:Cy;
    [|eexists _, []; rewrite <- app_assoc; split; [reflexivity|left; reflexivity]].
  apply chosen_Some in Cx, Cy.
  assert (Ix : In x numeric) by (eapply selectbox_In; exact Cx).
  assert (Iy : In y y_options) by (eapply selectbox_In; exact Cy).
  apply List.filter_In in Iy. destruct Iy as [Iy Ny].
  assert (Nxy : x <> y).
  { intros ->. rewrite Cx in Ny. rewrite bool_decide_eq_true_2 in Ny by reflexivity.
    discriminate. }
  unfold bind at 1.
  match goal with |- context [match ?h with Some _ => _ | None => ret None end] =>
    destruct h as [hname|] end.
  - unfold bind at 1. unfold lift at 1.
    destruct (getitem d hname) as [hs|e];
      [|eexists _, []; rewrite <- app_assoc; split; [reflexivity|left; reflexivity]].
    unfold ret at 1. unfold bind at 1. unfold lift at 1.
    destruct (getitem d x) as [sx|e] eqn:Gx;
      [|eexists _, []; rewrite <- app_assoc; split; [reflexivity|left; reflexivity]].
    unfold bind at 1. unfold lift at 1.
    destruct (getitem d y) as [sy|e] eqn:Gy;
      [|eexists _, []; rewrite <- app_assoc; split; [reflexivity|left; reflexivity]].
    unfold plot. destruct (draw _) as [e|];
      [eexists _, []; rewrite <- app_assoc; split; [reflexivity|left; reflexivity]|].
    unfold emit. simpl. eexists _, _. rewrite <- !app_assoc.
    split; [reflexivity|]. right. exists x, y, sx, sy, (Some hs). auto 10.
  - unfold ret at 1. unfold bind at 1. unfold lift at 1.
    destruct (getitem d x) as [sx|e] eqn:Gx;
      [|eexists _, []; rewrite <- app_assoc; split; [reflexivity|left; reflexivity]].
    unfold bind at 1. unfold lift at 1.
    destruct (getitem d y) as [sy|e] eqn:Gy;
      [|eexists _, []; rewrite <- app_assoc; split; [reflexivity|left; reflexivity]].
    unfold plot. destruct (draw _) as [e|];
      [eexists _, []; rewrite <- app_assoc; split; [reflexivity|left; reflexivity]|].
    unfold emit. simpl. eexists _, _. rewrite <- !app_assoc.
    split; [reflexivity|]. right. exists x, y, sx, sy, None. auto 10.
Qed.

End Plots.

Lemma no_numeric_column_no_figure_witness :
  exists out,
    @visualizer sample_library (selection NoStrategy [] BarChart) 0 (loaded cities) =
      (Ok tt, mkWorld (store (loaded cities)) (screen (loaded cities) ++ out)) /\
    forall c title, ~ In (Pyplot c title) out.
Proof.
  apply (@no_numeric_column_no_figure sample_library
           (selection NoStrategy [] BarChart) (loaded cities) 0 cities).
  - reflexivity.
  - intros c [<-|[]]. reflexivity.
Defined.

Lemma scatter_axes_differ_witness :
  exists r out,
    @visualizer sample_library (selection NoStrategy [] ScatterPlot) 0 (loaded unscored) =
      (r, mkWorld (store (loaded unscored))
            (screen (loaded unscored) ++
             [Header "Data Visualization"; Subheader "Scatter Plot"] ++ out)) /\
    (out = [] \/
     exists x y sx sy hue_data,
       x <> y /\
       In x (select_dtypes is_number unscored) /\ In y (select_dtypes is_number unscored) /\
       getitem unscored x = Ok sx /\ getitem unscored y = Ok sy /\
       r = Ok tt /\
       out = [Pyplot (Scatterplot sx sy hue_data)
                     ("Scatter Plot of " ++ x ++ " vs " ++ y)%string]).
Proof.
  apply (@scatter_axes_differ sample_library
           (selection NoStrategy [] ScatterPlot) (loaded unscored) 0 unscored).
  - reflexivity.
  - reflexivity.
Defined.

(** ** The preview table *)

Section Shown.
Context `{Library}.

Lemma display_series_text s :
  is_object (display_series s) = true -> any_null (display_series s) = false.
Proof.
  unfold display_series. destruct (is_object s) eqn:O; [|congruence].
  intros _. unfold any_null, astype_str. simpl.
  induction (s_values s) as [|v r IH]; [reflexivity|exact IH].
Qed.

Lemma display_series_twice s : display_series (display_series s) = display_series s.
Proof.
  unfold display_series. destruct (is_object s) eqn:O; [|rewrite O; reflexivity].
  unfold astype_str. simpl. f_equal. rewrite map_map. reflexivity.
Qed.

Lemma display_table_twice d : display_table (display_table d) = display_table d.
Proof.
  unfold display_table. simpl. f_equal. rewrite map_map. apply map_ext.
  intros [n s]. simpl. rewrite display_series_twice. reflexivity.
Qed.

Lemma labels_display_table d : labels (display_table d) = labels d.
Proof. unfold labels, display_table. simpl. rewrite map_map. reflexivity. Qed.

(** X13.  In the table [to_display_df] returns no column of dtype object
    has a missing entry: a missing entry of such a column has become the
    text "nan".  The table is a new object. *)
Theorem display_has_no_missing_text l w d :
  store w !! l = Some d -> NoDup (labels d) ->
  exists l' w' d',
    to_display_df l w = (Ok l', w') /\
    l' <> l /\
    store w' !! l' = Some d' /\
    Forall (fun c => is_object (snd c) = true -> any_null (snd c) = false) (columns d') /\
    (forall c s, In (c, s) (columns d) -> is_object s = true ->
       exists s', In (c, s') (columns d') /\
                  Forall2 (fun old new => isnull old = true -> new = Str "nan")
                          (s_values s) (s_values s')).
Proof.
  intros E ND. rewrite (to_display_df_run l w d E ND).
  eexists _, _, _. split; [reflexivity|]. simpl.
  split; [apply fresh_not_allocated with d, E|].
  split; [apply lookup_insert_eq|]. split.
  - apply List.Forall_forall. intros c I. apply in_map_iff in I.
    destruct I as (c0 & <- & _). simpl. apply display_series_text.
  - intros c s I O. exists (display_series s). split.
    + apply in_map_iff. exists (c, s). auto.
    + unfold display_series. rewrite O. unfold astype_str. simpl.
      induction (s_values s) as [|v r IH]; simpl; constructor; [|exact IH].
      destruct v; simpl; intros X; try discriminate; reflexivity.
Qed.

(** X14.  Converting a converted table changes nothing more: the second
    call of [to_display_df] returns a table equal to the one it was
    given. *)
Theorem display_twice l w d :
  store w !! l = Some d -> NoDup (labels d) ->
  exists l1 w1 l2 w2 d',
    to_display_df l w = (Ok l1, w1) /\
    store w1 !! l1 = Some d' /\
    to_display_df l1 w1 = (Ok l2, w2) /\
    store w2 !! l2 = Some d' /\
    store w2 !! l1 = Some d'.
Proof.
  intros E ND. rewrite (to_display_df_run l w d E ND).
  set (l1 := fresh (dom (store w))).
  set (w1 := mkWorld (<[l1 := display_table d]> (store w)) (screen w)).
  assert (E1 : store w1 !! l1 = Some (display_table d)) by apply lookup_insert_eq.
  assert (ND1 : NoDup (labels (display_table d)))
    by (rewrite labels_display_table; exact ND).
  exists l1, w1. rewrite (to_display_df_run l1 w1 _ E1 ND1).
  eexists _, _, _. split; [reflexivity|]. split; [exact E1|].
  split; [reflexivity|]. simpl. rewrite display_table_twice.
  split; [apply lookup_insert_eq|].
  rewrite lookup_insert_ne; [apply lookup_insert_eq|].
  apply fresh_not_allocated with (display_table d). apply lookup_insert_eq.
Qed.

End Shown.

Lemma display_has_no_missing_text_witness :
  exists l' w' d',
    @to_display_df sample_library 0 (loaded events) = (Ok l', w') /\
    l' <> 0 /\
    store w' !! l' = Some d' /\
    Forall (fun c => is_object (snd c) = true -> any_null (snd c) = false) (columns d') /\
    (forall c s, In (c, s) (columns events) -> is_object s = true ->
       exists s', In (c, s') (columns d') /\
                  Forall2 (fun old new => isnull old = true -> new = Str "nan")
                          (s_values s) (s_values s')).
Proof.
  apply (@display_has_no_missing_text sample_library 0 (loaded events) events).
  - reflexivity.
  - unfold labels. simpl.
    repeat (apply NoDup_cons; split;
            [rewrite list_elem_of_In; simpl; intuition discriminate|]).
    apply NoDup_nil_2.
Defined.

Lemma display_twice_witness :
  exists l1 w1 l2 w2 d',
    @to_display_df sample_library 0 (loaded events) = (Ok l1, w1) /\
    store w1 !! l1 = Some d' /\
    @to_display_df sample_library l1 w1 = (Ok l2, w2) /\
    store w2 !! l2 = Some d' /\
    store w2 !! l1 = Some d'.
Proof.
  apply (@display_twice sample_library 0 (loaded events) events).
  - reflexivity.
  - unfold labels. simpl.
    repeat (apply NoDup_cons; split;
            [rewrite list_elem_of_In; simpl; intuition discriminate|]).
    apply NoDup_nil_2.
Defined.

(** ** The end of a render pass *)

Section Download.
Context `{Library}.

Lemma generate_summary_text l w d :
  store w !! l = Some d ->
  generate_summary l w =
    (match describe d with
     | Ok _ => Ok (report_text d)
     | Raise e => Raise e
     end, w).
Proof.
  intros E. unfold generate_summary, bind, load, lift, ret. rewrite E.
  unfold describe. destruct (columns d) as [|c r] eqn:C; [reflexivity|].
  f_equal. f_equal.
  unfold report_text. cbn [app]. rewrite !concat_cons. cbn [String.concat shape fst snd].
  rewrite !append_assoc. reflexivity.
Qed.

(** X15.  A render pass that ends normally ends with the download button,
    and the file it offers, [data_summary.txt], is the report of the
    working copy, that is of [working_copy] of the loaded table, the
    strategy and the drop set. *)
Theorem rendered_pass_offers_report ui df w d w' :
  store w !! df = Some d ->
  main ui df w = (Ok tt, w') ->
  exists d' shown,
    working_copy (missing_value_strategy ui) (columns_to_drop ui) d = Ok d' /\
    screen w' = shown ++ [DownloadButton "Download Summary Report" (report_text d')
                                         "data_summary.txt" "text/plain"].
Proof.
  intros E Run.
  destruct (cleaner_run ui df w d E) as (r & w1 & R & _ & W).
  unfold main in Run. unfold bind at 1 in Run. rewrite R in Run.
  destruct (working_copy _ _ d) as [d'|e]; [|subst r; discriminate].
  destruct W as (l & -> & _ & Sl).
  exists d'. unfold bind at 1 in Run.
  pose proof (modifies_only_inspector df l w1 l d' (fun F => F) Sl) as S2.
  destruct (inspector df l w1) as [[[]|e] w2]; [|discriminate]. simpl in S2.
  unfold bind at 1 in Run.
  pose proof (keeps_store_visualizer ui l w2) as S3.
  destruct (visualizer ui l w2) as [[[]|e] w3]; [|discriminate]. simpl in S3.
  rewrite <- S3 in S2.
  unfold reporter in Run. unfold bind at 1 in Run. unfold emit at 1 in Run.
  unfold bind at 1 in Run. unfold emit at 1 in Run. unfold bind at 1 in Run.
  rewrite (generate_summary_text l _ d') in Run by exact S2.
  destruct (describe d'); [|discriminate].
  unfold emit in Run. simpl in Run. injection Run as <-. simpl.
  eexists. split; reflexivity.
Qed.

End Download.

Lemma rendered_pass_offers_report_witness :
  exists d' shown,
    @working_copy sample_arithmetic FillMissing ["city"] people = Ok d' /\
    screen (snd (@main sample_library (selection FillMissing ["city"] CorrelationHeatmap) 0
                   (loaded people))) =
      shown ++ [DownloadButton "Download Summary Report" (@report_text sample_library d')
                               "data_summary.txt" "text/plain"].
Proof.
  apply (@rendered_pass_offers_report sample_library
           (selection FillMissing ["city"] CorrelationHeatmap) 0 (loaded people) people).
  - reflexivity.
  - vm_compute. reflexivity.
Defined.

(** ** The loader and the start of the script *)

Lemma endswith_spec s suffix :
  endswith s suffix = true <-> exists pre, s = (pre ++ suffix)%string.
Proof.
  split.
  - induction s as [|a r IH]; cbn [endswith].
    + destruct (String.eqb "" suffix) eqn:E; [|discriminate].
      apply String.eqb_eq in E. subst. intros _. exists "". reflexivity.
    + destruct (String.eqb (String a r) suffix) eqn:E.
      * apply String.eqb_eq in E. subst. intros _. exists "". reflexivity.
      * intros X. destruct (IH X) as [pre ->]. exists (String a pre). reflexivity.
  - intros [pre ->]. induction pre as [|a p IH].
    + change (endswith suffix suffix = true).
      destruct suffix; cbn [endswith]; rewrite String.eqb_refl; reflexivity.
    + change (endswith (String a (p ++ suffix)) suffix = true). cbn [endswith].
      destruct (String.eqb (String a (p ++ suffix)) suffix); [reflexivity|exact IH].
Qed.

Lemma endswith_false s suffix :
  (forall pre, s <> (pre ++ suffix)%string) -> endswith s suffix = false.
Proof.
  intros N. destruct (endswith s suffix) eqn:E; [|reflexivity].
  apply endswith_spec in E. destruct E as [pre E]. destruct (N pre E).
Qed.

Lemma sheet_named_In name d sheets :
  NoDup (map fst sheets) -> In (name, d) sheets -> sheet_named name sheets = Some d.
Proof.
  induction sheets as [|[n x] r IH]; simpl; [tauto|].
  intros ND I. apply NoDup_cons in ND. destruct ND as [Nn ND].
  destruct I as [I|I].
  - injection I as -> ->. rewrite String.eqb_refl. reflexivity.
  - destruct (String.eqb n name) eqn:E; [|apply IH; assumption].
    apply String.eqb_eq in E. subst n. exfalso. apply Nn.
    apply list_elem_of_In. apply in_map_iff. exists (name, d). auto.
Qed.

Section Loading.
Context `{Library} `{Parser}.

(** X16.  When the parser the file name calls for raises, [load_data]
    catches the exception: the script shows it as an error after the
    upload message and stops there.  No exception leaves the script and
    nothing of the render pass is run. *)
Theorem load_failure_is_reported file sheet_choice ui e :
  ((exists pre, file_name file = (pre ++ ".csv")%string) /\
   read_csv (file_content file) = Raise e) \/
  ((forall pre, file_name file <> (pre ++ ".csv")%string) /\
   (exists pre, file_name file = (pre ++ ".xlsx")%string) /\
   read_excel (file_content file) = Raise e) ->
  script (Some file) sheet_choice ui =
    ([Title "📊 Interactive Data Analysis Dashboard";
      Caption "Upload your CSV or Excel file to begin exploring your data.";
      SidebarHeader "1. Upload Your Data";
      Success "File uploaded successfully!";
      Error "Error loading data: " e],
     Halted).
Proof.
  intros Hyp.
  assert (L : load_data file = ([Error "Error loading data: " e], None)).
  { unfold load_data, load_data_try.
    destruct Hyp as [[C R]|(NC & X & R)].
    - rewrite (proj2 (endswith_spec _ _) C), R. reflexivity.
    - rewrite (endswith_false _ _ NC), (proj2 (endswith_spec _ _) X), R. reflexivity. }
  unfold script, begin. rewrite L. reflexivity.
Qed.

(** X17.  A file whose name ends neither in [.csv] nor in [.xlsx], the
    letters compared as they are, is not parsed: whatever the parsers
    would do, the script shows the upload message, no error, and stops. *)
Theorem unsupported_name_stops_silently file sheet_choice ui :
  (forall pre, file_name file <> (pre ++ ".csv")%string) ->
  (forall pre, file_name file <> (pre ++ ".xlsx")%string) ->
  script (Some file) sheet_choice ui =
    ([Title "📊 Interactive Data Analysis Dashboard";
      Caption "Upload your CSV or Excel file to begin exploring your data.";
      SidebarHeader "1. Upload Your Data";
      Success "File uploaded successfully!"],
     Halted).
Proof.
  intros NC NX.
  assert (L : load_data file = ([], None)).
  { unfold load_data, load_data_try.
    rewrite (endswith_false _ _ NC), (endswith_false _ _ NX). reflexivity. }
  unfold script, begin. rewrite L. reflexivity.
Qed.

(** X18.  The table the render pass works on: for a [.csv] file that
    parses, the parsed table; for an [.xlsx] workbook that parses (its
    sheet names distinct), the sheet at the position selected in the
    sheet box.  Nothing but the upload message is shown before the
    pass. *)
Theorem render_pass_gets_selected_table file sheet_choice ui :
  (forall d,
     (exists pre, file_name file = (pre ++ ".csv")%string) ->
     read_csv (file_content file) = Ok d ->
     script (Some file) sheet_choice ui =
       ([Title "📊 Interactive Data Analysis Dashboard";
         Caption "Upload your CSV or Excel file to begin exploring your data.";
         SidebarHeader "1. Upload Your Data";
         Success "File uploaded successfully!"],
        Rendered (fst (main ui 0 (loaded d))) (snd (main ui 0 (loaded d))))) /\
  (forall sheets name d,
     (forall pre, file_name file <> (pre ++ ".csv")%string) ->
     (exists pre, file_name file = (pre ++ ".xlsx")%string) ->
     read_excel (file_content file) = Ok sheets ->
     NoDup (map fst sheets) ->
     sheets !! sheet_choice = Some (name, d) ->
     script (Some file) sheet_choice ui =
       ([Title "📊 Interactive Data Analysis Dashboard";
         Caption "Upload your CSV or Excel file to begin exploring your data.";
         SidebarHeader "1. Upload Your Data";
         Success "File uploaded successfully!"],
        Rendered (fst (main ui 0 (loaded d))) (snd (main ui 0 (loaded d))))).
Proof.
  split.
  - intros d C R.
    assert (L : load_data file = ([], Some (Table d))).
    { unfold load_data, load_data_try.
      rewrite (proj2 (endswith_spec _ _) C), R. reflexivity. }
    unfold script, begin. rewrite L. reflexivity.
  - intros sheets name d NC X R ND K.
    assert (L : load_data file = ([], Some (Sheets sheets))).
    { unfold load_data, load_data_try.
      rewrite (endswith_false _ _ NC), (proj2 (endswith_spec _ _) X), R. reflexivity. }
    unfold script, begin. rewrite L. simpl.
    unfold selectbox. rewrite list_lookup_fmap, K. simpl.
    rewrite (sheet_named_In name d sheets ND).
    + reflexivity.
    + apply list_elem_of_In. eapply list_elem_of_lookup_2, K.
Qed.

End Loading.

Lemma load_failure_is_reported_witness :
  @script sample_library sample_parser (Some (mkUpload "notes.csv" "")) 0
          (selection NoStrategy [] Histogram) =
    ([Title "📊 Interactive Data Analysis Dashboard";
      Caption "Upload your CSV or Excel file to begin exploring your data.";
      SidebarHeader "1. Upload Your Data";
      Success "File uploaded successfully!";
      Error "Error loading data: " (ValueError "No columns to parse from file")],
     Halted).
Proof.
  apply (@load_failure_is_reported sample_library sample_parser
           (mkUpload "notes.csv" "") 0 (selection NoStrategy [] Histogram)).
  left. split; [exists "notes"; reflexivity|reflexivity].
Defined.

Lemma unsupported_name_stops_silently_witness :
  @script sample_library sample_parser (Some (mkUpload "DATA.CSV" "people")) 0
          (selection NoStrategy [] Histogram) =
    ([Title "📊 Interactive Data Analysis Dashboard";
      Caption "Upload your CSV or Excel file to begin exploring your data.";
      SidebarHeader "1. Upload Your Data";
      Success "File uploaded successfully!"],
     Halted).
Proof.
  apply (@unsupported_name_stops_silently sample_library sample_parser
           (mkUpload "DATA.CSV" "people") 0 (selection NoStrategy [] Histogram)).
  - intros pre E. assert (X : endswith "DATA.CSV" ".csv" = true)
      by (apply endswith_spec; exists pre; exact E).
    vm_compute in X. discriminate.
  - intros pre E. assert (X : endswith "DATA.CSV" ".xlsx" = true)
      by (apply endswith_spec; exists pre; exact E).
    vm_compute in X. discriminate.
Defined.

Lemma render_pass_gets_selected_table_witness :
  @script sample_library sample_parser (Some (mkUpload "book.xlsx" "workbook")) 1
          (selection NoStrategy [] BarChart) =
    ([Title "📊 Interactive Data Analysis Dashboard";
      Caption "Upload your CSV or Excel file to begin exploring your data.";
      SidebarHeader "1. Upload Your Data";
      Success "File uploaded successfully!"],
     Rendered (fst (@main sample_library (selection NoStrategy [] BarChart) 0 (loaded sales)))
              (snd (@main sample_library (selection NoStrategy [] BarChart) 0 (loaded sales)))).
Proof.
  apply (proj2 (@render_pass_gets_selected_table sample_library sample_parser
                  (mkUpload "book.xlsx" "workbook") 1 (selection NoStrategy [] BarChart))
           [("people", people); ("sales", sales)] "sales" sales).
  - intros pre E. assert (X : endswith "book.xlsx" ".csv" = true)
      by (apply endswith_spec; exists pre; exact E).
    vm_compute in X. discriminate.
  - exists "book". reflexivity.
  - reflexivity.
  - simpl. repeat (apply NoDup_cons; split;
                   [rewrite list_elem_of_In; simpl; intuition discriminate|]).
    apply NoDup_nil_2.
  - reflexivity.
Defined.
